(** * Slicer Copilot: settings mapping, response validation and change application

    A shallow embedding of the parts of the repository that decide how an
    optimizer response is validated ([src/llm/responseValidator.js]), how its
    changes are applied to the normalized project model
    ([src/apply/changes.js], which this tree keeps as the second part of
    [src/constants.js], and [src/utils/objectOverrides.js]), how a vendor
    config is mapped to canonical settings ([src/3mf/configMapping.js]), how
    geometry hints are derived ([src/3mf/parser.js]) and how the writer keeps
    the vendor config in shape ([src/3mf/writer.js]).

    JavaScript values are modelled by the type [value]; numbers are IEEE 754
    binary64 floats (the kernel's primitive floats), objects are finite maps
    from property names to values, exceptions are the [Throw] results of the
    [result] monad. *)

From Stdlib Require Import Floats ZArith Uint63 Ascii String.
From stdpp Require Import gmap strings list sorting pretty.

Set Warnings "-register-all,-inexact-float,-clear-no-such-hyp".

(** ** JavaScript values *)

Module Js.

(** Own properties only: the properties an object inherits from
    [Object.prototype], and the index and [length] properties of arrays and
    strings, are not modelled. An own property holding [undefined] reads like
    an absent one. *)
Inductive value : Type :=
| VUndefined
| VNull
| VBool (b : bool)
| VNum (n : float)
| VStr (s : string)
| VArr (items : list value)
| VObj (props : gmap string value).

#[export] Instance value_inhabited : Inhabited value := populate VUndefined.

(** The two exceptions the embedded code can raise. The message of an
    [InvalidLlmResponseError] is kept as the reason it was built from. *)
Inductive rejection : Type :=
| InvalidJson
| NotAnObject
| MissingChangesArray
| MissingParameter (index : nat)
| MissingNewValue (parameter : value)
| UnsupportedScope (scope parameter : value).

Inductive exn : Type :=
| InvalidLlmResponseError (why : rejection)
| TypeError.

Inductive result (A : Type) : Type :=
| Ok (a : A)
| Throw (e : exn).
Arguments Ok {A} a.
Arguments Throw {A} e.

#[export] Instance result_ret : MRet result := λ A, Ok.
#[export] Instance result_bind : MBind result := λ A B f m,
  match m with
  | Ok a => f a
  | Throw e => Throw e
  end.

(** What the host provides and the repository only calls: the conversions
    between numbers and strings, [String.prototype.toLowerCase], whose case
    mapping covers all of Unicode, and [JSON.parse] ([None] when it throws
    [SyntaxError]). *)
Class JsHost : Type := {
  Number_toString : float → string;
  StringToNumber : string → float;
  parseFloat : string → float;
  String_toLowerCase : string → string;
  JSON_parse : string → option value;
}.

(** [v == null] *)
Definition is_nullish (v : value) : bool :=
  match v with
  | VUndefined | VNull => true
  | _ => false
  end.

(** [a ?? b] *)
Definition nullish_or (a b : value) : value :=
  if is_nullish a then b else a.

(** [ToBoolean] on numbers: [0], [-0] and [NaN] are falsy. *)
Definition number_truthy (n : float) : bool :=
  negb ((n =? 0)%float || is_nan n).

Definition truthy (v : value) : bool :=
  match v with
  | VUndefined | VNull => false
  | VBool b => b
  | VNum n => number_truthy n
  | VStr s => negb (String.eqb s "")
  | VArr _ | VObj _ => true
  end.

(** [typeof v === "object"] *)
Definition typeof_object (v : value) : bool :=
  match v with
  | VNull | VArr _ | VObj _ => true
  | _ => false
  end.

Definition is_reference (v : value) : bool :=
  match v with
  | VArr _ | VObj _ => true
  | _ => false
  end.

(** [a === b]. Arrays and objects compare by reference. Every [===] of the
    embedded code compares a value of the model with a literal or with a
    value of the response, which are distinct references, with one exception:
    [proposed === currentValue] when [computeNewValue] returned
    [currentValue] itself. That case is decided by [same_value] below. *)
Definition strict_equals (a b : value) : bool :=
  match a, b with
  | VUndefined, VUndefined => true
  | VNull, VNull => true
  | VBool x, VBool y => Bool.eqb x y
  | VNum x, VNum y => (x =? y)%float
  | VStr x, VStr y => String.eqb x y
  | _, _ => false
  end.

(** [proposed === current], where [alias] says that [proposed] is the very
    binding [current]. *)
Definition same_value (alias : bool) (proposed current : value) : bool :=
  strict_equals proposed current || (alias && is_reference current).

(** [o[k]] on an object's own properties *)
Definition own (o : gmap string value) (k : string) : value :=
  default VUndefined (o !! k).

(** [v.k]: reading a property of [undefined] or [null] throws. *)
Definition get_member (v : value) (k : string) : result value :=
  match v with
  | VUndefined | VNull => Throw TypeError
  | VObj o => Ok (own o k)
  | _ => Ok VUndefined
  end.

(** [v?.k] and [v?.[k]] *)
Definition opt_member (v : value) (k : string) : value :=
  match v with
  | VObj o => own o k
  | _ => VUndefined
  end.

(** [{ ...v }] *)
Definition spread_object (v : value) : gmap string value :=
  match v with
  | VObj o => o
  | _ => ∅
  end.

Fixpoint chars (s : string) : list value :=
  match s with
  | EmptyString => []
  | String c s' => VStr (String c EmptyString) :: chars s'
  end.

(** [[...v]]: only arrays and strings are iterable. *)
Definition spread_iterable (v : value) : result (list value) :=
  match v with
  | VArr items => Ok items
  | VStr s => Ok (chars s)
  | _ => Throw TypeError
  end.

(** [String(v)], [`${v}`], [v.toString()] and the coercion of a property
    key. *)
Fixpoint ToString `{JsHost} (v : value) : string :=
  match v with
  | VUndefined => "undefined"
  | VNull => "null"
  | VBool true => "true"
  | VBool false => "false"
  | VNum n => Number_toString n
  | VStr s => s
  | VArr items =>
      String.concat ","
        (List.map (λ x, match x with
                        | VUndefined | VNull => ""
                        | _ => ToString x
                        end) items)
  | VObj _ => "[object Object]"
  end.

(** [Number(v)] *)
Definition ToNumber `{JsHost} (v : value) : float :=
  match v with
  | VUndefined => nan
  | VNull => 0%float
  | VBool true => 1%float
  | VBool false => 0%float
  | VNum n => n
  | VStr s => StringToNumber s
  | VArr _ | VObj _ => StringToNumber (ToString v)
  end.

(** [v[0]]: reading a property of [undefined] or [null] throws; the first
    element of an array, the first character of a string, the own property
    [0] of an object. *)
Definition first_element (v : value) : result value :=
  match v with
  | VUndefined | VNull => Throw TypeError
  | VArr items => Ok (hd VUndefined items)
  | VStr s => Ok (hd VUndefined (chars s))
  | VObj o => Ok (own o "0")
  | _ => Ok VUndefined
  end.

End Js.

Export Js.

Notation "a ?? b" := (nullish_or a b) (at level 45, left associativity).

(** ** Response validation ([src/llm/responseValidator.js]) *)

Module ResponseValidator.

(** The shape [parseLlmResponse] returns. *)
Record LlmResponse : Type := {
  version : value;
  changes : list value;
  globalRationale : value;
  warnings : value;
}.

Definition allowedScopes : list value := [VStr "global"; VStr "object"].

(** [allowedScopes.includes(scope)] *)
Definition includes (l : list value) (v : value) : bool :=
  existsb (strict_equals v) l.

Definition validateChange (change : value) (index : nat) : result value :=
  parameter ← get_member change "parameter";
  if negb (truthy parameter)
  then Throw (InvalidLlmResponseError (MissingParameter index))
  else
    newValue ← get_member change "newValue";
    if strict_equals newValue VUndefined
    then Throw (InvalidLlmResponseError (MissingNewValue parameter))
    else
      scope0 ← get_member change "scope";
      let scope := scope0 ?? VStr "global" in
      if negb (includes allowedScopes scope)
      then Throw (InvalidLlmResponseError (UnsupportedScope scope parameter))
      else
        target ← get_member change "target";
        changeType ← get_member change "changeType";
        reason ← get_member change "reason";
        Ok (VObj {[ "scope" := scope;
                    "target" := target ?? VNull;
                    "parameter" := parameter;
                    "newValue" := newValue;
                    "changeType" := changeType ?? VStr "absolute";
                    "reason" := reason ?? VStr "" ]}).

(** [changes.map(validateChange)]: the entries are validated in order, the
    first exception ends the map. *)
Fixpoint validateChanges (changes : list value) (index : nat) : result (list value) :=
  match changes with
  | [] => Ok []
  | change :: rest =>
      validated ← validateChange change index;
      others ← validateChanges rest (S index);
      Ok (validated :: others)
  end.

Definition parseLlmResponse `{JsHost} (content : value) : result LlmResponse :=
  parsed ← match content with
           | VStr s =>
               match JSON_parse s with
               | Some v => Ok v
               | None => Throw (InvalidLlmResponseError InvalidJson)
               end
           | _ => Ok content
           end;
  if negb (truthy parsed) || negb (typeof_object parsed)
  then Throw (InvalidLlmResponseError NotAnObject)
  else
    changes ← get_member parsed "changes";
    match changes with
    | VArr items =>
        validatedChanges ← validateChanges items 0;
        version ← get_member parsed "version";
        globalRationale ← get_member parsed "globalRationale";
        warnings ← get_member parsed "warnings";
        Ok {| version := version ?? VNum 1;
              changes := validatedChanges;
              globalRationale := globalRationale;
              warnings := warnings ?? VArr [] |}
    | _ => Throw (InvalidLlmResponseError MissingChangesArray)
    end.

End ResponseValidator.

(** ** The per-object override store ([src/utils/objectOverrides.js]) *)

Module ObjectOverrides.

(** The key is used as a property name, hence the final coercion when
    [plateIndex] is nullish and the name itself is returned. *)
Definition makeObjectKey `{JsHost} (objectName plateIndex : value) : string :=
  let name := objectName ?? VStr "object" in
  if is_nullish plateIndex
  then ToString name
  else ToString plateIndex +:+ "::" +:+ ToString name.


(** Returns the store after the call and the record stored under the key.
    The caller's later writes to that record are writes to the store. *)
Definition ensureObjectOverride `{JsHost}
    (overrides : gmap string (gmap string value))
    (objectName plateIndex : value)
    : gmap string (gmap string value) * gmap string value :=
  let key := makeObjectKey objectName plateIndex in
  match overrides !! key with
  | Some record => (overrides, record)
  | None =>
      let record : gmap string value :=
        {[ "plateIndex" := plateIndex; "objectName" := objectName ]} in
      (<[key := record]> overrides, record)
  end.

End ObjectOverrides.

(** ** Strings and sets of strings, as the host has them *)

Module Text.

(** [s.slice(n)] *)
Fixpoint slice (n : nat) (s : string) : string :=
  match n, s with
  | O, _ => s
  | S n', String _ s' => slice n' s'
  | S _, EmptyString => EmptyString
  end.

(** [s.split(sep)] for a one-character separator *)
Fixpoint split (sep : ascii) (s : string) : list string :=
  match s with
  | EmptyString => [EmptyString]
  | String c s' =>
      if Ascii.eqb c sep
      then EmptyString :: split sep s'
      else match split sep s' with
           | [] => [String c EmptyString]
           | piece :: pieces => String c piece :: pieces
           end
  end.

Fixpoint trim_start (s : string) : string :=
  match s with
  | String c s' => if Ascii.is_space c then trim_start s' else s
  | EmptyString => EmptyString
  end.

(** [s.trim()], on the white space of ASCII *)
Definition trim (s : string) : string :=
  String.rev (trim_start (String.rev (trim_start s))).

Definition is_lower_or_digit (c : ascii) : bool :=
  let n := nat_of_ascii c in
  ((97 <=? n)%nat && (n <=? 122)%nat) || ((48 <=? n)%nat && (n <=? 57)%nat).

(** [s.replace(/[^a-z0-9]/g, "")]: every character that is not one of these
    36 is dropped, whatever its encoding. *)
Fixpoint keep_lower_alnum (s : string) : string :=
  match s with
  | EmptyString => EmptyString
  | String c s' =>
      if is_lower_or_digit c
      then String c (keep_lower_alnum s')
      else keep_lower_alnum s'
  end.

(** [s.replace(c, "")]: the first occurrence only *)
Fixpoint remove_first (c : ascii) (s : string) : string :=
  match s with
  | EmptyString => EmptyString
  | String d s' => if Ascii.eqb c d then s' else String d (remove_first c s')
  end.

(** A [Set] of strings: its elements in insertion order. *)
Definition set_add (k : string) (s : list string) : list string :=
  if bool_decide (k ∈ s) then s else s ++ [k].

(** [new Set(items)] *)
Definition set_of_list (items : list string) : list string :=
  fold_left (λ s k, set_add k s) items [].

End Text.

(** ** Applying the changes ([src/apply/changes.js]) *)

Module ApplyChanges.

Import ResponseValidator ObjectOverrides.

Record PlateObject : Type := {
  obj_name : value;
  obj_plateIndex : value;
  obj_geometry : value;
  obj_settings : option (gmap string value);
}.

Record Plate : Type := {
  plate_index : value;
  plate_name : value;
  plate_objects : list PlateObject;
}.

(** The normalized project model of [parse3mfBuffer]. [projectInfo] stands for
    the fields the engine never reads ([fileName], [printer], [filaments],
    [base_profile]). *)
Record Normalized : Type := {
  projectInfo : value;
  plates : list Plate;
  globalProcess : gmap string value;
  perObjectOverrides : gmap string (gmap string value);
  userModifiedSettings : option (list value);
}.

Definition set_globalProcess (gp : gmap string value) (m : Normalized) : Normalized :=
  {| projectInfo := projectInfo m; plates := plates m; globalProcess := gp;
     perObjectOverrides := perObjectOverrides m;
     userModifiedSettings := userModifiedSettings m |}.

Definition set_perObjectOverrides (o : gmap string (gmap string value))
    (m : Normalized) : Normalized :=
  {| projectInfo := projectInfo m; plates := plates m;
     globalProcess := globalProcess m; perObjectOverrides := o;
     userModifiedSettings := userModifiedSettings m |}.

Definition set_plates (ps : list Plate) (m : Normalized) : Normalized :=
  {| projectInfo := projectInfo m; plates := ps;
     globalProcess := globalProcess m;
     perObjectOverrides := perObjectOverrides m;
     userModifiedSettings := userModifiedSettings m |}.

Record Diff : Type := {
  scope : string;
  target : value;
  parameter : value;
  from : value;
  to : value;
  reason : value;
}.

(** The translator [i18n.t]: a message key and its variables give the text. *)
Definition translator : Type := string → list (string * value) → string.

Definition SPEEDS_PARAMETER_PREFIX : string := "speeds.".

(** [parameter.startsWith] is a function only when [parameter] is a string. *)
Definition parseSpeedKey (parameter : value) : result (option string) :=
  match parameter with
  | VStr p =>
      if String.prefix SPEEDS_PARAMETER_PREFIX p
      then
        let rest := Text.slice (String.length SPEEDS_PARAMETER_PREFIX) p in
        Ok (Some (hd EmptyString (Text.split "."%char rest)))
      else Ok None
  | _ => Throw TypeError
  end.

(** The setter mutates the container it was resolved on: here it maps the
    container to the mutated one. *)
Definition resolveParameter `{JsHost} (container : gmap string value) (parameter : value)
    : result (value * (value → gmap string value → gmap string value)) :=
  speedKey ← parseSpeedKey parameter;
  match speedKey with
  | Some key =>
      Ok (opt_member (own container "speeds") key,
          λ v c,
            let speeds :=
              if truthy (own c "speeds") then spread_object (own c "speeds") else ∅ in
            <["speeds" := VObj (<[key := v]> speeds)]> c)
  | None =>
      Ok (own container (ToString parameter),
          λ v c, <[ToString parameter := v]> c)
  end.

(** Returns the proposed value, whether it is [currentValue] itself, and the
    warnings after the call. *)
Definition computeNewValue (t : translator) (currentValue change : value)
    (warnings : list value) : result (value * bool * list value) :=
  changeType ← get_member change "changeType";
  newValue ← get_member change "newValue";
  if strict_equals changeType (VStr "relative")
  then
    match currentValue, newValue with
    | VNum current, VNum delta =>
        Ok (VNum (current + current * delta)%float, false, warnings)
    | _, _ =>
        parameter ← get_member change "parameter";
        Ok (currentValue, true,
            warnings ++ [VStr (t "relativeChangeTypeWarning" [("parameter", parameter)])])
    end
  else Ok (newValue, false, warnings).

Definition findPlatePredicate (objectName plateIndex : value) (plate : Plate) : bool :=
  if negb (strict_equals plateIndex VNull)
     && negb (strict_equals (plate_index plate) plateIndex)
  then false
  else existsb (λ obj, strict_equals (obj_name obj) objectName) (plate_objects plate).

Definition findPlate (plates : list Plate) (objectName plateIndex : value)
    : option Plate :=
  List.find (findPlatePredicate objectName plateIndex) plates.

Definition formatDiff (change : value) (from to : value) (scope : string)
    (target : value) : result Diff :=
  parameter ← get_member change "parameter";
  reason ← get_member change "reason";
  Ok {| scope := scope; target := target; parameter := parameter;
        from := from; to := to; reason := reason ?? VStr "" |}.

Definition resolveObjectTarget (change : value) : result (value * value) :=
  target ← get_member change "target";
  parameter ← get_member change "parameter";
  Ok (opt_member target "objectName" ?? opt_member target "name" ?? parameter,
      opt_member target "plateIndex" ?? VNull).

(** Mutating the first element a [find] returns. *)
Fixpoint update_first {A} (p : A → bool) (f : A → A) (l : list A) : list A :=
  match l with
  | [] => []
  | x :: l' => if p x then f x :: l' else x :: update_first p f l'
  end.

Definition syncPlateOverride `{JsHost} (plate : Plate) (objectName parameter v : value)
    : Plate :=
  {| plate_index := plate_index plate;
     plate_name := plate_name plate;
     plate_objects :=
       update_first (λ item, strict_equals (obj_name item) objectName)
         (λ obj,
            {| obj_name := obj_name obj;
               obj_plateIndex := obj_plateIndex obj;
               obj_geometry := obj_geometry obj;
               obj_settings :=
                 Some (<[ToString parameter := v]> (default ∅ (obj_settings obj))) |})
         (plate_objects plate) |}.

Definition applyGlobalChange `{JsHost} (t : translator) (updated : Normalized)
    (change : value) (warnings : list value)
    : result (Normalized * list value * option Diff) :=
  parameter ← get_member change "parameter";
  '(currentValue, setter) ← resolveParameter (globalProcess updated) parameter;
  if strict_equals currentValue VUndefined
  then
    Ok (updated,
        warnings ++ [VStr (t "unknownParameterWarning" [("parameter", parameter)])],
        None)
  else
    '(proposed, alias, warnings) ← computeNewValue t currentValue change warnings;
    if same_value alias proposed currentValue
    then Ok (updated, warnings, None)
    else
      diff ← formatDiff change currentValue proposed "global" VNull;
      Ok (set_globalProcess (setter proposed (globalProcess updated)) updated,
          warnings, Some diff).

Definition applyObjectChange `{JsHost} (t : translator) (updated : Normalized)
    (change : value) (warnings : list value)
    : result (Normalized * list value * option Diff) :=
  '(targetName, plateIndex) ← resolveObjectTarget change;
  parameter ← get_member change "parameter";
  match findPlate (plates updated) targetName plateIndex with
  | None =>
      Ok (updated,
          warnings ++ [VStr (t "objectNotFoundWarning"
                               [("object", targetName); ("parameter", parameter)])],
          None)
  | Some plate =>
      let '(overrides, override) :=
        ensureObjectOverride (perObjectOverrides updated) targetName (plate_index plate) in
      let updated := set_perObjectOverrides overrides updated in
      '(currentValue, setter) ← resolveParameter override parameter;
      baseValue ←
        (if strict_equals currentValue VUndefined
         then '(globalValue, _) ← resolveParameter (globalProcess updated) parameter;
              Ok globalValue
         else Ok currentValue);
      if strict_equals baseValue VUndefined
      then
        Ok (updated,
            warnings ++ [VStr (t "unknownObjectParameterWarning"
                                 [("parameter", parameter); ("object", targetName)])],
            None)
      else
        '(proposed, alias, warnings) ← computeNewValue t baseValue change warnings;
        if same_value alias proposed baseValue
        then Ok (updated, warnings, None)
        else
          let overrides :=
            <[makeObjectKey targetName (plate_index plate) := setter proposed override]>
              overrides in
          let plates :=
            update_first (findPlatePredicate targetName plateIndex)
              (λ p, syncPlateOverride p targetName parameter proposed)
              (plates updated) in
          diff ← formatDiff change baseValue proposed "object"
                   (VObj {[ "objectName" := targetName;
                            "plateIndex" := plate_index plate ]});
          Ok (set_plates plates (set_perObjectOverrides overrides updated),
              warnings, Some diff)
  end.

Definition applySingleChange `{JsHost} (t : translator) (updated : Normalized)
    (change : value) (warnings : list value)
    : result (Normalized * list value * option Diff) :=
  scope0 ← get_member change "scope";
  let scope := scope0 ?? VStr "global" in
  if strict_equals scope (VStr "global")
  then applyGlobalChange t updated change warnings
  else applyObjectChange t updated change warnings.

(** [s.replace(/[^a-z0-9]/g, "")] after [toLowerCase] *)
Definition normalizeSettingKey `{JsHost} (key : value) : string :=
  Text.keep_lower_alnum (String_toLowerCase (ToString key)).

Record UserModifiedLookup : Type := {
  raw : gset string;
  normalized : gset string;
}.

Definition buildUserModifiedLookup `{JsHost} (userModifiedSettings : list value)
    : UserModifiedLookup :=
  fold_left
    (λ lookup entry,
       if negb (truthy entry) then lookup
       else
         let key := ToString entry in
         {| raw := raw lookup ∪ {[ key ]};
            normalized := normalized lookup ∪ {[ normalizeSettingKey (VStr key) ]} |})
    userModifiedSettings
    {| raw := ∅; normalized := ∅ |}.

(** [raw.has(parameter)] holds for a string only: the set holds strings. *)
Definition isUserSettingLocked `{JsHost} (parameter : value) (lookup : UserModifiedLookup)
    : bool :=
  if bool_decide (size (raw lookup) = 0) then false
  else if match parameter with
          | VStr p => bool_decide (p ∈ raw lookup)
          | _ => false
          end
  then true
  else bool_decide (normalizeSettingKey parameter ∈ normalized lookup).

(** One iteration of the loop over [response.changes], on the state
    [(updated, warnings, diffs)]. *)
Definition applyLlmChanges_step `{JsHost} (t : translator) (respectUserSettings : bool)
    (userModified : UserModifiedLookup)
    (state : Normalized * list value * list Diff) (change : value)
    : result (Normalized * list value * list Diff) :=
  let '(updated, warnings, diffs) := state in
  locked ←
    (if respectUserSettings
     then parameter ← get_member change "parameter";
          Ok (isUserSettingLocked parameter userModified)
     else Ok false);
  if (locked : bool)
  then
    parameter ← get_member change "parameter";
    Ok (updated,
        warnings ++ [VStr (t "userSettingLockedWarning" [("parameter", parameter)])],
        diffs)
  else
    '(updated, warnings, diff) ← applySingleChange t updated change warnings;
    Ok (updated, warnings, diffs ++ option_list diff).

Fixpoint applyLlmChanges_loop `{JsHost} (t : translator) (respectUserSettings : bool)
    (userModified : UserModifiedLookup)
    (state : Normalized * list value * list Diff) (changes : list value)
    : result (Normalized * list value * list Diff) :=
  match changes with
  | [] => Ok state
  | change :: rest =>
      state ← applyLlmChanges_step t respectUserSettings userModified state change;
      applyLlmChanges_loop t respectUserSettings userModified state rest
  end.

(** [structuredClone(normalized)] is the identity on values; the caller's
    model is never mutated. The result is [{ updated, warnings, diffs }]. *)
Definition applyLlmChanges `{JsHost} (t : translator) (normalized : Normalized)
    (response : LlmResponse) (respectUserSettings : bool)
    : result (Normalized * list value * list Diff) :=
  let updated := normalized in
  warnings ← spread_iterable (warnings response ?? VArr []);
  let userModified :=
    buildUserModifiedLookup (default [] (userModifiedSettings updated)) in
  applyLlmChanges_loop t respectUserSettings userModified
    (updated, warnings, []) (changes response).

End ApplyChanges.

(** ** The config mapping table ([src/3mf/configMapping.js]) *)

Module ConfigMapping.

Inductive mode : Type := shaped | direct.

Record Mapping : Type := {
  configKey : string;
  targetKey : string;
  mapping_mode : mode;
  parse : value → value;
  serialize : value → value;
}.

(** [value[0]] of an array, the value itself otherwise *)
Definition first (v : value) : value :=
  match v with
  | VArr items => hd VUndefined items
  | _ => v
  end.

Definition unwrapSingle (v : value) : value :=
  match v with
  | VArr [x] => x
  | _ => v
  end.

Definition passthrough (v : value) : value := v.

Definition numberOrNull `{JsHost} (v : value) : value :=
  if is_nullish v then VNull
  else let num := ToNumber v in
       if is_nan num then VNull else VNum num.

Definition percentToNumber `{JsHost} (v : value) : value :=
  if is_nullish v then VNull
  else
    let str := Text.trim (Text.remove_first "%"%char (ToString v)) in
    let parsed := parseFloat str in
    if is_nan parsed then VNull else VNum parsed.

Definition parseNumber `{JsHost} (v : value) : value := numberOrNull (first v).

Definition parsePercent `{JsHost} (v : value) : value := percentToNumber (first v).

Definition parseString (v : value) : value :=
  let raw := first v in
  if is_nullish raw then VNull else raw.

Definition parseSupportFlag (v : value) : value :=
  let raw := first v in
  if is_nullish raw then VNull
  else VBool (strict_equals raw (VStr "1") || strict_equals raw (VNum 1)
              || strict_equals raw (VBool true) || strict_equals raw (VStr "true")).

Definition formatPercent `{JsHost} (v : value) : value :=
  if is_nullish v then VUndefined else VStr (ToString v +:+ "%").

Definition formatSupportFlag (v : value) : value :=
  if is_nullish v then VUndefined else VStr (if truthy v then "1" else "0").

Definition GLOBAL_PROCESS_MAPPINGS `{JsHost} : list Mapping := [
  {| configKey := "layer_height"; targetKey := "layer_height_mm";
     mapping_mode := shaped; parse := parseNumber; serialize := passthrough |};
  {| configKey := "initial_layer_print_height"; targetKey := "first_layer_height_mm";
     mapping_mode := shaped; parse := parseNumber; serialize := passthrough |};
  {| configKey := "wall_loops"; targetKey := "wall_line_count";
     mapping_mode := shaped; parse := parseNumber; serialize := passthrough |};
  {| configKey := "top_shell_layers"; targetKey := "top_layers";
     mapping_mode := shaped; parse := parseNumber; serialize := passthrough |};
  {| configKey := "bottom_shell_layers"; targetKey := "bottom_layers";
     mapping_mode := shaped; parse := parseNumber; serialize := passthrough |};
  {| configKey := "sparse_infill_density"; targetKey := "infill_density_percent";
     mapping_mode := direct; parse := parsePercent; serialize := formatPercent |};
  {| configKey := "sparse_infill_pattern"; targetKey := "infill_pattern";
     mapping_mode := direct; parse := parseString; serialize := passthrough |};
  {| configKey := "nozzle_temperature"; targetKey := "nozzle_temp_c";
     mapping_mode := shaped; parse := parseNumber; serialize := passthrough |};
  {| configKey := "nozzle_temperature_initial_layer"; targetKey := "nozzle_temp_c";
     mapping_mode := shaped; parse := parseNumber; serialize := passthrough |};
  {| configKey := "eng_plate_temp"; targetKey := "bed_temp_c";
     mapping_mode := shaped; parse := parseNumber; serialize := passthrough |};
  {| configKey := "hot_plate_temp"; targetKey := "bed_temp_c";
     mapping_mode := shaped; parse := parseNumber; serialize := passthrough |};
  {| configKey := "fan_max_speed"; targetKey := "fan_speed_percent";
     mapping_mode := shaped; parse := parseNumber; serialize := passthrough |};
  {| configKey := "first_x_layer_fan_speed"; targetKey := "first_layers_fan_percent";
     mapping_mode := shaped; parse := parseNumber; serialize := passthrough |};
  {| configKey := "enable_support"; targetKey := "supports_enabled";
     mapping_mode := direct; parse := parseSupportFlag; serialize := formatSupportFlag |}
].

(** [{ configKey, speedKey }] *)
Definition SPEED_MAPPINGS : list (string * string) := [
  ("outer_wall_speed", "wall_outer");
  ("inner_wall_speed", "wall_inner");
  ("sparse_infill_speed", "infill");
  ("initial_layer_speed", "first_layer")
].

Definition CONSUMED_CONFIG_KEYS `{JsHost} : list string :=
  map configKey GLOBAL_PROCESS_MAPPINGS
  ++ map fst SPEED_MAPPINGS
  ++ ["raft_layers"; "different_settings_to_system"].

Definition ALLOWED_EXTRA_CONFIG_KEYS : list string := [
  "travel_speed"; "bridge_speed"; "small_perimeter_speed";
  "top_surface_speed"; "gap_infill_speed"; "support_speed";
  "support_interface_speed"; "internal_solid_infill_speed";
  "initial_layer_infill_speed"; "overhang_1_4_speed"; "overhang_2_4_speed";
  "overhang_3_4_speed"; "overhang_4_4_speed"; "travel_acceleration";
  "travel_jerk"; "outer_wall_acceleration"; "inner_wall_acceleration";
  "sparse_infill_acceleration"; "initial_layer_acceleration";
  "top_surface_acceleration"; "default_acceleration"; "default_jerk";
  "infill_jerk"; "inner_wall_jerk"; "outer_wall_jerk"; "initial_layer_jerk";
  "top_surface_jerk"; "overhang_fan_speed"; "overhang_fan_threshold";
  "overhang_threshold_participating_cooling"; "slow_down_layer_time";
  "slow_down_min_speed"; "fan_min_speed"; "fan_cooling_layer_time";
  "full_fan_speed_layer"; "close_fan_the_first_x_layers";
  "enable_overhang_bridge_fan"; "line_width"; "outer_wall_line_width";
  "inner_wall_line_width"; "sparse_infill_line_width";
  "initial_layer_line_width"; "internal_solid_infill_line_width";
  "top_surface_line_width"; "support_line_width"; "wall_sequence";
  "wall_generator"; "detect_thin_wall"; "detect_overhang_wall";
  "only_one_wall_first_layer"; "min_bead_width"; "min_feature_size";
  "wall_distribution_count"; "wall_transition_angle";
  "wall_transition_length"; "wall_transition_filter_deviation";
  "precise_outer_wall"; "top_surface_pattern"; "bottom_surface_pattern";
  "ironing_type"; "ironing_speed"; "ironing_flow"; "ironing_spacing";
  "ironing_pattern"; "top_solid_infill_flow_ratio"; "top_one_wall_type";
  "sparse_infill_anchor"; "sparse_infill_anchor_max"; "infill_direction";
  "infill_wall_overlap"; "infill_combination"; "minimum_sparse_infill_area";
  "internal_solid_infill_pattern"; "filter_out_gap_fill";
  "support_threshold_angle"; "support_style"; "support_type";
  "support_top_z_distance"; "support_bottom_z_distance";
  "support_object_xy_distance"; "support_on_build_plate_only";
  "support_critical_regions_only"; "support_interface_top_layers";
  "support_interface_bottom_layers"; "support_interface_spacing";
  "support_interface_pattern"; "support_base_pattern";
  "support_base_pattern_spacing"; "support_expansion";
  "independent_support_layer_height"; "tree_support_branch_angle";
  "tree_support_branch_diameter"; "tree_support_branch_diameter_angle";
  "tree_support_branch_distance"; "tree_support_wall_count"; "brim_width";
  "brim_type"; "brim_object_gap"; "skirt_distance"; "skirt_loops";
  "skirt_height"; "raft_layers"; "raft_contact_distance"; "raft_expansion";
  "raft_first_layer_density"; "raft_first_layer_expansion"; "z_hop";
  "z_hop_types"; "retraction_length"; "retraction_speed";
  "retraction_minimum_travel"; "retract_when_changing_layer"; "wipe";
  "wipe_distance"; "wipe_speed"; "retract_before_wipe"; "deretraction_speed";
  "filament_flow_ratio"; "print_flow_ratio"; "initial_layer_flow_ratio";
  "bridge_flow"; "filament_max_volumetric_speed"; "seam_position";
  "seam_gap"; "seam_slope_type"; "seam_slope_conditional";
  "seam_slope_inner_walls"; "seam_slope_steps"; "seam_slope_start_height";
  "seam_slope_min_length"; "xy_hole_compensation"; "xy_contour_compensation";
  "elefant_foot_compensation"; "resolution"; "slice_closing_radius";
  "spiral_mode"; "spiral_mode_smooth"; "spiral_mode_max_xy_smoothing";
  "fuzzy_skin"; "fuzzy_skin_thickness"; "fuzzy_skin_point_distance";
  "thick_bridges"; "bridge_no_support"; "bridge_angle"; "max_bridge_length";
  "internal_bridge_support_thickness"; "pressure_advance";
  "enable_pressure_advance"; "enable_arc_fitting"; "enable_prime_tower";
  "prime_tower_width"; "prime_tower_rib_width"; "prime_tower_lift_height";
  "prime_tower_max_speed"; "prime_tower_brim_width"; "wipe_tower_x";
  "wipe_tower_y"; "avoid_crossing_wall"; "reduce_crossing_wall";
  "reduce_infill_retraction"; "complete_objects"; "print_sequence";
  "exclude_object"
].

Definition normalizeConfigEntries (config : gmap string value) : gmap string value :=
  unwrapSingle <$> config.

(** One call of the [forEach] callback over [GLOBAL_PROCESS_MAPPINGS], on
    [(next, populated)]. *)
Definition mapGlobalProcess_step (normalizedConfig : gmap string value)
    (state : gmap string value * gset string) (mapping : Mapping)
    : gmap string value * gset string :=
  let '(next, populated) := state in
  let parsed := parse mapping (own normalizedConfig (configKey mapping)) in
  if is_nullish parsed then state
  else if bool_decide (targetKey mapping ∈ populated) then state
  else (<[targetKey mapping := parsed]> next, populated ∪ {[ targetKey mapping ]}).

Definition applyAdhesionFromConfig `{JsHost} (config settings : gmap string value)
    : gmap string value :=
  let raft := parseNumber (own config "raft_layers") in
  let brim := parseNumber (own config "brim_width") in
  let positive (v : value) :=
    truthy v && match v with VNum n => (0 <? n)%float | _ => false end in
  if positive raft then <["adhesion_type" := VStr "raft"]> settings
  else if positive brim then <["adhesion_type" := VStr "brim"]> settings
  else settings.

Definition applySpeedsFromConfig `{JsHost} (config settings : gmap string value)
    : gmap string value :=
  let '(speeds, touched) :=
    fold_left
      (λ '(speeds, touched) '(configKey, speedKey),
         let v := parseNumber (own config configKey) in
         if is_nullish v then (speeds, touched)
         else (<[speedKey := v]> speeds, true))
      SPEED_MAPPINGS
      (spread_object (own settings "speeds" ?? VObj ∅), false) in
  if (touched : bool) then <["speeds" := VObj speeds]> settings else settings.

(** The callback of [Object.entries(config).forEach]: an entry writes its own
    key only, so the order of the entries does not matter. *)
Definition mergeRemainingConfig_step `{JsHost} (key : string) (v : value)
    (settings : gmap string value) : gmap string value :=
  if bool_decide (key ∈ CONSUMED_CONFIG_KEYS) then settings
  else if negb (bool_decide (key ∈ ALLOWED_EXTRA_CONFIG_KEYS)) then settings
  else if negb (strict_equals (own settings key) VUndefined) then settings
  else <[key := v]> settings.

Definition mergeRemainingConfig `{JsHost} (config settings : gmap string value)
    : gmap string value :=
  map_fold mergeRemainingConfig_step settings config.

Definition mapConfigToSettings `{JsHost} (config baseSettings : gmap string value)
    : gmap string value :=
  let normalizedConfig := normalizeConfigEntries config in
  let '(next, _) :=
    fold_left (mapGlobalProcess_step normalizedConfig) GLOBAL_PROCESS_MAPPINGS
      (baseSettings, ∅) in
  let next := applyAdhesionFromConfig normalizedConfig next in
  let next := applySpeedsFromConfig normalizedConfig next in
  mergeRemainingConfig normalizedConfig next.

End ConfigMapping.

(** ** Geometry hints ([src/3mf/parser.js]) *)

Module Parser.

Record Geometry : Type := {
  bounding_box_mm : float * float * float;
  max_dimension_mm : float;
  min_dimension_mm : float;
  height_to_min_footprint_ratio : option float;
  is_slender : bool;
}.

Definition is_positive_zero (n : float) : bool :=
  match classify n with PZero => true | _ => false end.

Definition is_negative_zero (n : float) : bool :=
  match classify n with NZero => true | _ => false end.

(** [Math.max]: [NaN] if an argument is, and [+0] is larger than [-0]. *)
Definition Math_max (numbers : list float) : float :=
  if existsb is_nan numbers then nan
  else
    fold_left
      (λ highest number,
         if is_positive_zero number && is_negative_zero highest then number
         else if (highest <? number)%float then number else highest)
      numbers neg_infinity.

(** [Math.min]: [NaN] if an argument is, and [-0] is smaller than [+0]. *)
Definition Math_min (numbers : list float) : float :=
  if existsb is_nan numbers then nan
  else
    fold_left
      (λ lowest number,
         if is_negative_zero number && is_positive_zero lowest then number
         else if (number <? lowest)%float then number else lowest)
      numbers infinity.

(** [bounding] is the [bounding_box_mm] triple of numbers, [None] when the
    object has none; the result is [None] for [null]. *)
Definition buildGeometryFromBounding (bounding : option (float * float * float))
    : option Geometry :=
  match bounding with
  | None => None
  | Some (x, y, z) =>
      let maxDimension := Math_max [x; y; z] in
      let minDimension := Math_min [x; y; z] in
      let ratio :=
        if (minDimension =? 0)%float then None else Some (z / minDimension)%float in
      Some {| bounding_box_mm := (x, y, z);
              max_dimension_mm := maxDimension;
              min_dimension_mm := minDimension;
              height_to_min_footprint_ratio := ratio;
              is_slender :=
                match ratio with
                | Some r => if number_truthy r then (4 <? r)%float else false
                | None => false
                end |}
  end.

(** The keys of [configData?.different_settings_to_system], flattened and
    deduplicated. *)
Definition extractUserModifiedSettings (configData : value) : list value :=
  match opt_member configData "different_settings_to_system" with
  | VArr different =>
      let allKeys :=
        flat_map
          (λ group,
             match group with
             | VStr s =>
                 filter (λ k, k ≠ EmptyString)
                   (map Text.trim (Text.split ";"%char s))
             | _ => []
             end)
          different in
      map VStr (Text.set_of_list allKeys)
  | _ => []
  end.

End Parser.

(** ** Writing the vendor config back ([src/3mf/writer.js]) *)

Module Writer.

Definition setConfigValue `{JsHost} (existing v : value) : value :=
  if is_nullish v then existing
  else
    let asString := ToString v in
    match existing with
    | VArr items =>
        if (length items =? 0)%nat then VArr [VStr asString]
        else VArr (map (λ _, VStr asString) items)
    | _ => VStr asString
    end.

(** Returns [(cfg, touchedKeys)] after the call. *)
Definition setShapedConfigValue `{JsHost} (cfg : gmap string value)
    (touchedKeys : list string) (key : string) (v : value)
    : gmap string value * list string :=
  (<[key := setConfigValue (own cfg key) v]> cfg, Text.set_add key touchedKeys).

Definition setDirectConfigValue (cfg : gmap string value)
    (touchedKeys : list string) (key : string) (v : value)
    : gmap string value * list string :=
  if is_nullish v then (cfg, touchedKeys)
  else (<[key := v]> cfg, Text.set_add key touchedKeys).

(** The callback of [GLOBAL_PROCESS_MAPPINGS.forEach] in
    [applyGlobalProcessConfig]: writing a canonical value back through its
    mapping, on [(cfg, touchedKeys)]. *)
Definition applyGlobalProcessConfig_step `{JsHost} (gp : gmap string value)
    (state : gmap string value * list string) (mapping : ConfigMapping.Mapping)
    : gmap string value * list string :=
  let '(cfg, touchedKeys) := state in
  let v := own gp (ConfigMapping.targetKey mapping) in
  if strict_equals v VUndefined then state
  else
    let formatted := ConfigMapping.serialize mapping v in
    if is_nullish formatted then state
    else
      match ConfigMapping.mapping_mode mapping with
      | ConfigMapping.shaped =>
          setShapedConfigValue cfg touchedKeys (ConfigMapping.configKey mapping)
            formatted
      | ConfigMapping.direct =>
          setDirectConfigValue cfg touchedKeys (ConfigMapping.configKey mapping)
            formatted
      end.

(** [DIFFERENT_SETTINGS_GROUP_KEYS.print], [.filament] and [.printer] *)
Definition DIFFERENT_SETTINGS_GROUP_KEYS_print : list string := [
  "layer_height"; "initial_layer_print_height"; "wall_loops";
  "top_shell_layers"; "bottom_shell_layers"; "sparse_infill_density";
  "sparse_infill_pattern"; "outer_wall_speed"; "inner_wall_speed";
  "sparse_infill_speed"; "initial_layer_speed"; "enable_support";
  "brim_width"; "raft_layers"; "default_print_profile"
].

Definition DIFFERENT_SETTINGS_GROUP_KEYS_filament : list string := [
  "compatible_printers"; "eng_plate_temp"; "hot_plate_temp"; "fan_max_speed";
  "first_x_layer_fan_speed"; "nozzle_temperature";
  "nozzle_temperature_initial_layer"; "filament_type"
].

Definition DIFFERENT_SETTINGS_GROUP_KEYS_printer : list string := [
  "printer_model"; "nozzle_diameter"
].

Definition parseDifferentSettingsToSystem (existing : value) : list (list string) :=
  let arr := match existing with VArr items => items | _ => [] end in
  map (λ index,
         let raw := match arr !! index with
                    | Some (VStr s) => s
                    | _ => EmptyString
                    end in
         filter (λ k, k ≠ EmptyString) (map Text.trim (Text.split ";"%char raw)))
      [0; 1; 2]%nat.

(** A [Map] from key to group index; a later group overwrites an earlier one. *)
Definition buildExistingIndexByKey (groups : list (list string)) : gmap string nat :=
  fold_left
    (λ indexByKey '(index, keys),
       fold_left (λ indexByKey key, <[key := index]> indexByKey) keys indexByKey)
    (imap (λ index keys, (index, keys)) groups)
    ∅.

Definition resolveDifferentSettingsGroupIndex (key : string)
    (existingIndexByKey : gmap string nat) : nat :=
  match existingIndexByKey !! key with
  | Some existing => existing
  | None =>
      if bool_decide (key ∈ DIFFERENT_SETTINGS_GROUP_KEYS_print) then 0
      else if bool_decide (key ∈ DIFFERENT_SETTINGS_GROUP_KEYS_filament) then 1
      else if bool_decide (key ∈ DIFFERENT_SETTINGS_GROUP_KEYS_printer) then 2
      else 0
  end.

(** [[...keys].sort().join(";")]: the default sort orders strings by their
    code units. *)
Definition formatDifferentSettingsGroup (keys : list string) : string :=
  if (length keys =? 0)%nat then EmptyString
  else String.concat ";" (merge_sort String.le keys).

(** [a.every((value, index) => value === b[index])]. Vendor config entries
    are strings or arrays of strings, which [===] compares by value. *)
Fixpoint every_equal (a b : list value) : bool :=
  match a, b with
  | [], _ => true
  | x :: a', y :: b' => strict_equals x y && every_equal a' b'
  | x :: a', [] => strict_equals x VUndefined && every_equal a' []
  end.

Definition areConfigValuesEqual (a b : value) : bool :=
  match a, b with
  | VArr xs, VArr ys =>
      if negb (length xs =? length ys)%nat then false else every_equal xs ys
  | VArr _, _ | _, VArr _ => false
  | _, _ => strict_equals a b
  end.

(** The body of the loop over [touchedKeys], on [merged]. *)
Definition updateDifferentSettings_step (base updated : gmap string value)
    (existingIndexByKey : gmap string nat)
    (merged : list (list string)) (key : string) : list (list string) :=
  if String.eqb key "different_settings_to_system" then merged
  else if areConfigValuesEqual (own base key) (own updated key) then merged
  else
    let groupIndex := resolveDifferentSettingsGroupIndex key existingIndexByKey in
    alter (Text.set_add key) groupIndex merged.

Definition updateDifferentSettingsToSystem (existing : value)
    (base updated : gmap string value) (touchedKeys : list string) : list string :=
  let groups := parseDifferentSettingsToSystem existing in
  let merged := map Text.set_of_list groups in
  let existingIndexByKey := buildExistingIndexByKey groups in
  let merged :=
    fold_left (updateDifferentSettings_step base updated existingIndexByKey)
      touchedKeys merged in
  let merged :=
    match merged !! 1%nat with
    | Some filament =>
        if (0 <? length filament)%nat
        then alter (Text.set_add "compatible_printers") 1%nat merged
        else merged
    | None => merged
    end in
  map formatDifferentSettingsGroup merged.

(** *** The functions that build the written config and the metadata *)

Import ObjectOverrides ApplyChanges.

(** [MAPPED_TARGET_KEYS] and [MAPPED_CONFIG_KEYS] *)
Definition MAPPED_TARGET_KEYS `{JsHost} : list string :=
  map ConfigMapping.targetKey ConfigMapping.GLOBAL_PROCESS_MAPPINGS.

Definition MAPPED_CONFIG_KEYS `{JsHost} : list string :=
  map ConfigMapping.configKey ConfigMapping.GLOBAL_PROCESS_MAPPINGS
  ++ map fst ConfigMapping.SPEED_MAPPINGS
  ++ ["brim_width"; "raft_layers"].

(** [normalized.projectSummary.k], for a property [k] other than [plates] *)
Definition projectSummary_member (normalized : Normalized) (k : string)
    : result value :=
  get_member (projectInfo normalized) k.

Definition writeAdhesionToConfig (state : gmap string value * list string)
    (adhesionType : value) : gmap string value * list string :=
  let '(cfg, touchedKeys) := state in
  let '(cfg, touchedKeys) :=
    setDirectConfigValue cfg touchedKeys "brim_width"
      (if strict_equals adhesionType (VStr "brim")
       then own cfg "brim_width" ?? VStr "5" else VStr "0") in
  setDirectConfigValue cfg touchedKeys "raft_layers"
    (if strict_equals adhesionType (VStr "raft")
     then own cfg "raft_layers" ?? VStr "1" else VStr "0").

Definition writePrinterAndFilament `{JsHost} (state : gmap string value * list string)
    (normalized : Normalized) : result (gmap string value * list string) :=
  let '(cfg, touchedKeys) := state in
  printer ← projectSummary_member normalized "printer";
  nozzleDiameter ← get_member printer "nozzle_diameter_mm";
  let '(cfg, touchedKeys) :=
    if negb (is_nullish nozzleDiameter)
    then (<["nozzle_diameter" := VArr [VStr (ToString nozzleDiameter)]]> cfg,
          Text.set_add "nozzle_diameter" touchedKeys)
    else (cfg, touchedKeys) in
  filaments ← projectSummary_member normalized "filaments";
  firstFilament ← first_element filaments;
  let filamentFamily := opt_member firstFilament "material_family" in
  let '(cfg, touchedKeys) :=
    if truthy filamentFamily
    then (<["filament_type" := VArr [filamentFamily]]> cfg,
          Text.set_add "filament_type" touchedKeys)
    else (cfg, touchedKeys) in
  base_profile ← projectSummary_member normalized "base_profile";
  let baseProfile := base_profile ?? own cfg "default_print_profile" in
  if negb (strict_equals baseProfile VUndefined)
  then Ok (<["default_print_profile" := baseProfile]> cfg,
           Text.set_add "default_print_profile" touchedKeys)
  else Ok (cfg, touchedKeys).

Definition applyGlobalProcessConfig `{JsHost} (state : gmap string value * list string)
    (normalized : Normalized) : result (gmap string value * list string) :=
  let gp := globalProcess normalized in
  let state :=
    fold_left (applyGlobalProcessConfig_step gp)
      ConfigMapping.GLOBAL_PROCESS_MAPPINGS state in
  let state := writeAdhesionToConfig state (own gp "adhesion_type") in
  writePrinterAndFilament state normalized.

(** The callback of [SPEED_MAPPINGS.forEach] in [applySpeedConfig]. *)
Definition applySpeedConfig_step `{JsHost} (speeds : value)
    (state : gmap string value * list string) (mapping : string * string)
    : gmap string value * list string :=
  let '(cfg, touchedKeys) := state in
  let '(configKey, speedKey) := mapping in
  let v := opt_member speeds speedKey in
  if strict_equals v VUndefined then state
  else (<[configKey := setConfigValue (own cfg configKey) v]> cfg,
        Text.set_add configKey touchedKeys).

Definition applySpeedConfig `{JsHost} (state : gmap string value * list string)
    (speeds : value) : gmap string value * list string :=
  fold_left (applySpeedConfig_step speeds) ConfigMapping.SPEED_MAPPINGS state.

Definition allowedExtraKey (key : string) : bool :=
  bool_decide (key ∈ ConfigMapping.ALLOWED_EXTRA_CONFIG_KEYS).

(** The callback of [Object.entries(gp).forEach] in [applyAdditionalConfig]:
    an entry writes and touches its own key only. *)
Definition applyAdditionalConfig_step `{JsHost} (key : string) (v : value)
    (state : gmap string value * list string) : gmap string value * list string :=
  let '(cfg, touchedKeys) := state in
  if bool_decide (key ∈ MAPPED_TARGET_KEYS) then state
  else if bool_decide (key ∈ MAPPED_CONFIG_KEYS) then state
  else if negb (allowedExtraKey key) then state
  else if String.eqb key "speeds" || String.eqb key "adhesion_type" then state
  else if is_nullish v then state
  else (<[key := setConfigValue (own cfg key) v]> cfg, Text.set_add key touchedKeys).

(** The entries are visited in the order of the map, which is not the
    insertion order of the object: the written config does not depend on it,
    and the touched keys are the same set, which the bookkeeping sorts. *)
Definition applyAdditionalConfig `{JsHost} (state : gmap string value * list string)
    (gp : gmap string value) : gmap string value * list string :=
  map_fold applyAdditionalConfig_step state gp.

Definition buildConfigFromNormalized `{JsHost} (base : gmap string value)
    (normalized : Normalized) : result (gmap string value) :=
  let gp := globalProcess normalized in
  state ← applyGlobalProcessConfig (base, []) normalized;
  let state := applySpeedConfig state (own gp "speeds") in
  let '(cfg, touchedKeys) := applyAdditionalConfig state gp in
  Ok (<["different_settings_to_system" :=
          VArr (map VStr
                  (updateDifferentSettingsToSystem
                     (own cfg "different_settings_to_system") base cfg touchedKeys))]>
        cfg).

End Writer.

(** ** A host for the examples

    The theorems below hold for every host. The examples, witnesses and
    counterexamples run on this one, which agrees with the language on the
    inputs they use: decimal rendering of the integers below [2^53], of [NaN]
    and of the infinities; reading of unsigned decimal integer literals below
    [2^53]; lower-casing of the letters of ASCII. Elsewhere it answers the
    empty string or [NaN], and leaves characters outside ASCII as they are. No
    example parses a JSON text. *)

Module ExampleHost.

(** The integer a float denotes, if it denotes one. *)
Definition integer_of (n : float) : option Z :=
  match Prim2SF n with
  | S754_zero _ => Some 0%Z
  | S754_finite sign m e =>
      let magnitude :=
        if (0 <=? e)%Z then Some (Z.pos m * 2 ^ e)%Z
        else if (Z.pos m mod 2 ^ (- e) =? 0)%Z then Some (Z.pos m / 2 ^ (- e))%Z
        else None in
      (λ z, if sign then (- z)%Z else z) <$> magnitude
  | _ => None
  end.

Definition number_to_string (n : float) : string :=
  if is_nan n then "NaN"
  else match integer_of n with
       | Some z => if (Z.abs z <? 2 ^ 53)%Z then pretty z else EmptyString
       | None =>
           if (n =? infinity)%float then "Infinity"
           else if (n =? neg_infinity)%float then "-Infinity"
           else EmptyString
       end.

Fixpoint digits_value (acc : Z) (s : string) : option Z :=
  match s with
  | EmptyString => Some acc
  | String c s' =>
      match Ascii.is_nat c with
      | Some d => digits_value (10 * acc + Z.of_nat d)%Z s'
      | None => None
      end
  end.

Definition float_of_Z (z : Z) : float :=
  if (z <? 2 ^ 53)%Z then of_uint63 (Uint63.of_Z z) else nan.

Definition string_to_number (s : string) : float :=
  let s := Text.trim s in
  match digits_value 0 s with
  | Some z => float_of_Z z
  | None => nan
  end.

Fixpoint leading_digits (s : string) : string :=
  match s with
  | EmptyString => EmptyString
  | String c s' =>
      match Ascii.is_nat c with
      | Some _ => String c (leading_digits s')
      | None => EmptyString
      end
  end.

Definition parse_float (s : string) : float :=
  let digits := leading_digits (Text.trim_start s) in
  if String.eqb digits EmptyString then nan else string_to_number digits.

Definition is_upper (c : ascii) : bool :=
  (65 <=? nat_of_ascii c)%nat && (nat_of_ascii c <=? 90)%nat.

Fixpoint to_lower_case (s : string) : string :=
  match s with
  | EmptyString => EmptyString
  | String c s' =>
      String (if is_upper c then ascii_of_nat (nat_of_ascii c + 32) else c)
             (to_lower_case s')
  end.

#[export] Instance host : JsHost := {|
  Number_toString := number_to_string;
  StringToNumber := string_to_number;
  parseFloat := parse_float;
  String_toLowerCase := to_lower_case;
  JSON_parse := λ _, None;
|}.

(** A translator that answers the message key followed by the values of its
    variables. *)
Definition t : ApplyChanges.translator :=
  λ key vars, String.concat " " (key :: map (λ kv, ToString kv.2) vars).

End ExampleHost.

(** ** Models, responses and changes of the repository's tests *)

Module Examples.

Import ResponseValidator ApplyChanges.

(** An object literal. *)
Definition object (props : list (string * value)) : value :=
  VObj (list_to_map props).

(** [test/applyChanges.test.js], the model of the lock tests. *)
Definition fan_model (userModified : list value) (fan : float) : Normalized := {|
  projectInfo := object [("fileName", VStr "demo.3mf")];
  plates := [];
  globalProcess := {[ "fan_speed_percent" := VNum fan ]};
  perObjectOverrides := ∅;
  userModifiedSettings := Some userModified;
|}.

(** [test/applyChanges.test.js], the model without [userModifiedSettings]. *)
Definition infill_model : Normalized := {|
  projectInfo := object [("fileName", VStr "demo.3mf")];
  plates := [];
  globalProcess := {[ "infill_density_percent" := VNum 20 ]};
  perObjectOverrides := ∅;
  userModifiedSettings := None;
|}.

(** A model with one plate holding one object of the given name and no
    override, as the sample archive of the tests gives after parsing. *)
Definition cube_model (objectName : string) : Normalized := {|
  projectInfo := object [("fileName", VStr "sample.3mf")];
  plates := [ {| plate_index := VNum 0;
                 plate_name := VStr "Plate 1";
                 plate_objects :=
                   [ {| obj_name := VStr objectName;
                        obj_plateIndex := VNum 0;
                        obj_geometry := VNull;
                        obj_settings := None |} ] |} ];
  globalProcess :=
    {[ "layer_height_mm" := VNum 0.2;
       "wall_line_count" := VNum 2;
       "top_layers" := VNum 4;
       "infill_pattern" := VStr "grid";
       "supports_enabled" := VBool false;
       "speeds" := object [("wall_outer", VNum 40); ("infill", VNum 80)] ]};
  perObjectOverrides := ∅;
  userModifiedSettings := None;
|}.

(** A response whose only change has the given change type. *)
Definition response_with_changeType (changeType : value) : value :=
  object [("changes",
           VArr [object [("scope", VStr "global");
                         ("parameter", VStr "layer_height_mm");
                         ("newValue", VNum 0.18);
                         ("changeType", changeType)]])].

(** A response whose only change has a number for its parameter. *)
Definition response_with_numeric_parameter : value :=
  object [("changes",
           VArr [object [("scope", VStr "global");
                         ("parameter", VNum 5);
                         ("newValue", VNum 1)]])].

(** [{ changeType: "relative", newValue }] for a parameter *)
Definition relative_change (parameter : string) (newValue : value) : value :=
  object [("scope", VStr "global"); ("parameter", VStr parameter);
          ("newValue", newValue); ("changeType", VStr "relative")].

Definition absolute_change (parameter : string) (newValue : value) : value :=
  object [("scope", VStr "global"); ("parameter", VStr parameter);
          ("newValue", newValue)].

(** An object-scoped change, with or without a target. *)
Definition object_change (target : value) (parameter : string) (newValue : value)
    (changeType : string) : value :=
  object [("scope", VStr "object"); ("target", target);
          ("parameter", VStr parameter); ("newValue", newValue);
          ("changeType", VStr changeType)].

Definition cube_target : value :=
  object [("objectName", VStr "CalibrationCube"); ("plateIndex", VNum 0)].

(** A validated response made of the given changes. *)
Definition response_of (changes : list value) : LlmResponse := {|
  version := VNum 1;
  changes := changes;
  globalRationale := VUndefined;
  warnings := VArr [];
|}.

End Examples.

(** ** Two claims of the specification, as worded *)

Module Specified.

Import Parser.

(** Follows the specification's words, not the source: the ratio of the
    largest-axis extent to the smallest planar footprint extent exceeds 4, and
    an undefined ratio (zero footprint) gives [false]. *)
Definition is_slender_as_specified (x y z : float) : bool :=
  let largest := Math_max [x; y; z] in
  let footprint := Math_min [x; y] in
  if (footprint =? 0)%float then false else (4 <? largest / footprint)%float.

(** Follows the specification's words: among the mappings that target the
    canonical key, the first one in declaration order whose parse of the
    vendor config yields a non-null value. *)
Definition first_non_null_mapping (config : gmap string value)
    (canonicalKey : string) (mappings : list ConfigMapping.Mapping)
    : option ConfigMapping.Mapping :=
  find (λ mapping,
          String.eqb (ConfigMapping.targetKey mapping) canonicalKey
          && negb (is_nullish (ConfigMapping.parse mapping
                                 (own config (ConfigMapping.configKey mapping)))))
       mappings.

End Specified.

(** * Theorems *)

(** A decidable closed proposition, settled by evaluating its decision. *)
Ltac decide_by_evaluation :=
  match goal with
  | |- ?P => exact (bool_decide_unpack P I)
  end.

Import ResponseValidator ObjectOverrides ApplyChanges ConfigMapping Parser Writer.

(** ** Sets of strings *)

Lemma set_add_elem (k k' : string) (s : list string) :
  k' ∈ Text.set_add k s ↔ k' = k ∨ k' ∈ s.
Proof.
  unfold Text.set_add. case_bool_decide as Hin.
  - split; [auto|]. intros [->|?]; assumption.
  - rewrite elem_of_app, list_elem_of_singleton. tauto.
Qed.

Lemma set_add_NoDup (k : string) (s : list string) :
  NoDup s → NoDup (Text.set_add k s).
Proof.
  intros Hs. unfold Text.set_add. case_bool_decide as Hin; [exact Hs|].
  apply NoDup_app. split; [exact Hs|]. split.
  - intros x Hx Hx'. apply list_elem_of_singleton in Hx'. congruence.
  - apply NoDup_singleton.
Qed.

Lemma set_of_list_spec (items : list string) :
  NoDup (Text.set_of_list items) ∧ ∀ k, k ∈ Text.set_of_list items ↔ k ∈ items.
Proof.
  unfold Text.set_of_list.
  assert (∀ start, NoDup start →
            NoDup (fold_left (λ s k, Text.set_add k s) items start)
            ∧ ∀ k, k ∈ fold_left (λ s k, Text.set_add k s) items start
                   ↔ k ∈ start ∨ k ∈ items) as Hfold.
  { induction items as [|item items IH]; intros start Hstart; cbn [fold_left].
    - split; [exact Hstart|]. intros k. rewrite elem_of_nil. tauto.
    - destruct (IH (Text.set_add item start) (set_add_NoDup _ _ Hstart)) as [Hnodup Hin].
      split; [exact Hnodup|]. intros k.
      rewrite Hin, set_add_elem, elem_of_cons. tauto. }
  destruct (Hfold [] (NoDup_nil_2)) as [Hnodup Hin].
  split; [exact Hnodup|]. intros k. rewrite Hin, elem_of_nil. tauto.
Qed.

(** ** Response validation *)

(** A response that is accepted is an object whose [changes] is an array of
    objects, each with a truthy parameter, a [newValue] and a scope that is
    absent, [global] or [object]. The change type is not among the
    conditions. *)
Lemma validateChange_accepts (change : value) (index : nat) (validated : value) :
  validateChange change index = Ok validated →
  ∃ props,
    change = VObj props
    ∧ truthy (own props "parameter") = true
    ∧ strict_equals (own props "newValue") VUndefined = false
    ∧ includes allowedScopes (own props "scope" ?? VStr "global") = true
    ∧ validated
      = VObj {[ "scope" := own props "scope" ?? VStr "global";
                "target" := own props "target" ?? VNull;
                "parameter" := own props "parameter";
                "newValue" := own props "newValue";
                "changeType" := own props "changeType" ?? VStr "absolute";
                "reason" := own props "reason" ?? VStr "" ]}.
Proof.
  unfold validateChange.
  destruct change as [| | | | | |props]; try discriminate.
  cbn [get_member mbind result_bind].
  destruct (truthy (own props "parameter")) eqn:Hparameter; [|discriminate].
  destruct (strict_equals (own props "newValue") VUndefined) eqn:HnewValue;
    [discriminate|].
  destruct (includes allowedScopes (own props "scope" ?? VStr "global"))
    eqn:Hscope; [|discriminate].
  cbn. intros [= <-]. exists props. auto.
Qed.

Lemma validateChanges_accepts (items : list value) (index : nat)
    (validated : list value) :
  validateChanges items index = Ok validated →
  Forall2 (λ change accepted, ∃ i, validateChange change i = Ok accepted)
    items validated.
Proof.
  revert index validated.
  induction items as [|change items IH]; intros index validated.
  - intros [= <-]. constructor.
  - cbn [validateChanges].
    destruct (validateChange change index) as [accepted|] eqn:Hchange;
      [|discriminate].
    cbn [mbind result_bind].
    destruct (validateChanges items (S index)) as [others|] eqn:Hitems;
      [|discriminate].
    intros [= <-]. constructor; [eauto|]. exact (IH _ _ Hitems).
Qed.

Lemma parseLlmResponse_accepts `{JsHost} (content : value) (response : LlmResponse) :
  (∀ text, content ≠ VStr text) →
  parseLlmResponse content = Ok response →
  ∃ props items,
    content = VObj props
    ∧ own props "changes" = VArr items
    ∧ Forall2 (λ change accepted, ∃ i, validateChange change i = Ok accepted)
        items (changes response).
Proof.
  intros Hparsed. unfold parseLlmResponse.
  destruct content as [| |b|n|text|items|props].
  1, 2, 6: discriminate.
  { destruct b; discriminate. }
  { cbn. rewrite orb_true_r. discriminate. }
  { contradiction (Hparsed text). reflexivity. }
  cbn [mbind result_bind truthy typeof_object negb orb get_member].
  destruct (own props "changes") as [| | | | |items|] eqn:Hchanges;
    try discriminate.
  destruct (validateChanges items 0) as [validated|] eqn:Hitems; [|discriminate].
  cbn. intros [= <-]. exists props, items.
  split; [reflexivity|]. split; [exact Hchanges|].
  exact (validateChanges_accepts _ _ _ Hitems).
Qed.

(** An entry that is [null] is not reported as an invalid response: reading
    its parameter throws [TypeError]. *)
Lemma parseLlmResponse_null_change `{JsHost} :
  parseLlmResponse (Examples.object [("changes", VArr [VNull])]) = Throw TypeError.
Proof. vm_compute. reflexivity. Qed.

(** C1. The validator checks the scope of a change against its enum but not
    the change type: whatever the change type of a change is ([percent], a
    number, an object), the response is accepted and the change type is
    handed on as it is. *)
Theorem parseLlmResponse_accepts_any_changeType `{JsHost} (changeType : value) :
  parseLlmResponse (Examples.response_with_changeType changeType)
  = Ok {| version := VNum 1;
          changes :=
            [Examples.object [("scope", VStr "global"); ("target", VNull);
                              ("parameter", VStr "layer_height_mm");
                              ("newValue", VNum 0.18);
                              ("changeType", changeType ?? VStr "absolute");
                              ("reason", VStr "")]];
          globalRationale := VUndefined;
          warnings := VArr [] |}.
Proof. destruct changeType; vm_compute; reflexivity. Qed.

(** The engine then applies a change of type [percent] as an absolute one. *)
Lemma unknown_changeType_applied_as_absolute `{JsHost} (t : translator) :
  ∃ response,
    parseLlmResponse (Examples.response_with_changeType (VStr "percent"))
    = Ok response
    ∧ applyLlmChanges t (Examples.cube_model "CalibrationCube") response true
      = Ok (set_globalProcess
              (<["layer_height_mm" := VNum 0.18]>
                 (globalProcess (Examples.cube_model "CalibrationCube")))
              (Examples.cube_model "CalibrationCube"),
            [],
            [ {| scope := "global"; target := VNull;
                 parameter := VStr "layer_height_mm";
                 from := VNum 0.2; to := VNum 0.18; reason := VStr "" |} ]).
Proof. eexists. split; vm_compute; reflexivity. Qed.

(** ** Relative changes *)

(** C8. For a change of type [relative]: when the current value and
    [newValue] are both numbers the computed value is
    [current + current * newValue] and no warning is added; otherwise the
    call still returns, its value is the current value itself, and exactly one
    warning (the relative-change warning for the parameter) is added. *)
Theorem computeNewValue_relative (t : translator) (currentValue change : value)
    (warnings : list value) (newValue parameter : value) :
  get_member change "changeType" = Ok (VStr "relative") →
  get_member change "newValue" = Ok newValue →
  get_member change "parameter" = Ok parameter →
  computeNewValue t currentValue change warnings
  = match currentValue, newValue with
    | VNum current, VNum delta =>
        Ok (VNum (current + current * delta)%float, false, warnings)
    | _, _ =>
        Ok (currentValue, true,
            warnings ++ [VStr (t "relativeChangeTypeWarning"
                                 [("parameter", parameter)])])
    end.
Proof.
  intros HchangeType HnewValue Hparameter. unfold computeNewValue.
  rewrite HchangeType, HnewValue, Hparameter. cbn.
  destruct currentValue, newValue; reflexivity.
Qed.

(** The relative change [-0.5] of the current value [4] gives [2]; the relative
    change [bad] of [4] gives [4] and a warning. *)
Lemma computeNewValue_relative_witness :
  computeNewValue ExampleHost.t (VNum 4)
    (Examples.relative_change "wall_line_count" (VNum (-0.5))) []
  = Ok (VNum 2, false, [])
  ∧ computeNewValue ExampleHost.t (VNum 4)
      (Examples.relative_change "top_layers" (VStr "bad")) []
    = Ok (VNum 4, true, [VStr "relativeChangeTypeWarning top_layers"]).
Proof.
  split.
  - exact (computeNewValue_relative ExampleHost.t (VNum 4)
             (Examples.relative_change "wall_line_count" (VNum (-0.5))) []
             (VNum (-0.5)) (VStr "wall_line_count")
             eq_refl eq_refl eq_refl).
  - exact (computeNewValue_relative ExampleHost.t (VNum 4)
             (Examples.relative_change "top_layers" (VStr "bad")) []
             (VStr "bad") (VStr "top_layers")
             eq_refl eq_refl eq_refl).
Defined.

(** At the level of the engine: a relative global change whose operands are
    not both numbers records no diff and leaves the model as it is. The one
    exception is a current value that is [NaN], which is no number the change
    can be relative to and is not equal to itself. *)
Lemma relative_change_without_numbers_is_noop `{JsHost} (t : translator)
    (updated : Normalized) (change parameter newValue currentValue : value)
    (setter : value → gmap string value → gmap string value)
    (warnings : list value) :
  get_member change "changeType" = Ok (VStr "relative") →
  get_member change "newValue" = Ok newValue →
  get_member change "parameter" = Ok parameter →
  resolveParameter (globalProcess updated) parameter = Ok (currentValue, setter) →
  strict_equals currentValue VUndefined = false →
  match currentValue, newValue with
  | VNum current, VNum _ => False
  | VNum current, _ => is_nan current = false
  | _, _ => True
  end →
  applyGlobalChange t updated change warnings
  = Ok (updated,
        warnings ++ [VStr (t "relativeChangeTypeWarning" [("parameter", parameter)])],
        None).
Proof.
  intros HchangeType HnewValue Hparameter Hresolve Hknown Hoperands.
  unfold applyGlobalChange, computeNewValue.
  rewrite Hparameter. cbn. rewrite Hresolve. cbn.
  rewrite Hknown, HchangeType, HnewValue. cbn.
  destruct currentValue as [| |b|current|s|items|props].
  - discriminate Hknown.
  - reflexivity.
  - destruct b; reflexivity.
  - unfold is_nan in Hoperands.
    destruct newValue; try contradiction;
      apply negb_false_iff in Hoperands; cbn; unfold same_value; cbn;
      rewrite Hoperands; reflexivity.
  - cbn. unfold same_value, strict_equals. rewrite String.eqb_refl. reflexivity.
  - reflexivity.
  - reflexivity.
Qed.

(** ** Changes that compute the current value *)

(** [computeNewValue] adds at most the relative-change warning, and only when
    it returns the current value itself. *)
Lemma computeNewValue_warnings (t : translator) (currentValue change : value)
    (warnings : list value) (parameter proposed : value) (alias : bool)
    (warnings' : list value) :
  get_member change "parameter" = Ok parameter →
  computeNewValue t currentValue change warnings = Ok (proposed, alias, warnings') →
  warnings' = warnings
  ∨ warnings'
    = warnings ++ [VStr (t "relativeChangeTypeWarning" [("parameter", parameter)])].
Proof.
  intros Hparameter. unfold computeNewValue. rewrite Hparameter.
  destruct (get_member change "changeType") as [changeType|]; [|discriminate].
  destruct (get_member change "newValue") as [newValue|]; [|discriminate].
  cbn. destruct (strict_equals changeType (VStr "relative")).
  - destruct currentValue, newValue; cbn; intros [= <- <- <-]; auto.
  - intros [= <- <- <-]. auto.
Qed.

(** C2, as the code has it. When the computed value of a change strictly
    equals the current value, no diff is recorded and no setting is written:
    for a global change the model is unchanged; for an object change the
    global settings and the plates are unchanged and every record of the
    override store is unchanged, the store gaining at most the empty record
    [{ plateIndex, objectName }] of the target. The only warning such a change
    can add is the relative-change warning. *)
Theorem noop_change_suppressed `{JsHost} (t : translator) (updated : Normalized)
    (change parameter : value) (warnings : list value) :
  get_member change "parameter" = Ok parameter →
  let relativeWarning :=
    VStr (t "relativeChangeTypeWarning" [("parameter", parameter)]) in
  (∀ currentValue setter proposed alias warnings',
     resolveParameter (globalProcess updated) parameter = Ok (currentValue, setter) →
     strict_equals currentValue VUndefined = false →
     computeNewValue t currentValue change warnings = Ok (proposed, alias, warnings') →
     same_value alias proposed currentValue = true →
     applyGlobalChange t updated change warnings = Ok (updated, warnings', None)
     ∧ (warnings' = warnings ∨ warnings' = warnings ++ [relativeWarning]))
  ∧ (∀ targetName plateIndex plate currentValue setter baseValue proposed alias
       warnings',
       resolveObjectTarget change = Ok (targetName, plateIndex) →
       findPlate (plates updated) targetName plateIndex = Some plate →
       let key := makeObjectKey targetName (plate_index plate) in
       let ensured :=
         ensureObjectOverride (perObjectOverrides updated) targetName
           (plate_index plate) in
       resolveParameter ensured.2 parameter = Ok (currentValue, setter) →
       (if strict_equals currentValue VUndefined
        then '(globalValue, _) ← resolveParameter (globalProcess updated) parameter;
             Ok globalValue
        else Ok currentValue) = Ok baseValue →
       strict_equals baseValue VUndefined = false →
       computeNewValue t baseValue change warnings = Ok (proposed, alias, warnings') →
       same_value alias proposed baseValue = true →
       ∃ updated',
         applyObjectChange t updated change warnings = Ok (updated', warnings', None)
         ∧ projectInfo updated' = projectInfo updated
         ∧ plates updated' = plates updated
         ∧ globalProcess updated' = globalProcess updated
         ∧ userModifiedSettings updated' = userModifiedSettings updated
         ∧ (∀ other, other ≠ key →
              perObjectOverrides updated' !! other = perObjectOverrides updated !! other)
         ∧ perObjectOverrides updated' !! key
           = Some (default {[ "plateIndex" := plate_index plate;
                              "objectName" := targetName ]}
                     (perObjectOverrides updated !! key))
         ∧ (warnings' = warnings ∨ warnings' = warnings ++ [relativeWarning])).
Proof.
  intros Hparameter relativeWarning. split.
  - intros currentValue setter proposed alias warnings'
      Hresolve Hknown Hcompute Hsame.
    split; [|exact (computeNewValue_warnings _ _ _ _ _ _ _ _ Hparameter Hcompute)].
    unfold applyGlobalChange. rewrite Hparameter. cbn. rewrite Hresolve. cbn.
    rewrite Hknown, Hcompute. cbn. rewrite Hsame. reflexivity.
  - intros targetName plateIndex plate currentValue setter baseValue proposed alias
      warnings' Htarget Hfind key ensured Hresolve Hbase Hknown Hcompute Hsame.
    exists (set_perObjectOverrides ensured.1 updated).
    split; [|repeat split].
    + unfold applyObjectChange. rewrite Htarget, Hparameter. cbn. rewrite Hfind.
      fold ensured. destruct ensured as [overrides override] eqn:Hensured.
      cbn in Hresolve |- *. rewrite Hresolve. cbn.
      cbn in Hbase. rewrite Hbase. cbn. rewrite Hknown, Hcompute. cbn.
      rewrite Hsame. reflexivity.
    + intros other Hother. subst ensured. cbn. unfold ensureObjectOverride.
      fold key. destruct (perObjectOverrides updated !! key); cbn; [reflexivity|].
      apply lookup_insert_ne. congruence.
    + subst ensured. cbn. unfold ensureObjectOverride. fold key.
      destruct (perObjectOverrides updated !! key) eqn:Hkey; cbn;
        [exact Hkey|apply lookup_insert_eq].
    + exact (computeNewValue_warnings _ _ _ _ _ _ _ _ Hparameter Hcompute).
Qed.

(** Writing the value a setting already has: the global change of
    [top_layers] to [4] changes nothing; the object change of
    [wall_line_count] to the global value [2] records no diff and writes no
    setting, and leaves the empty record of the object in the store. *)
Lemma noop_change_suppressed_witness :
  let model := Examples.cube_model "CalibrationCube" in
  applyGlobalChange (H := ExampleHost.host) ExampleHost.t model
    (Examples.absolute_change "top_layers" (VNum 4)) []
  = Ok (model, [], None)
  ∧ ∃ updated',
      applyObjectChange (H := ExampleHost.host) ExampleHost.t model
        (Examples.object_change Examples.cube_target "wall_line_count" (VNum 2)
           "absolute") []
      = Ok (updated', [], None)
      ∧ plates updated' = plates model
      ∧ globalProcess updated' = globalProcess model
      ∧ perObjectOverrides updated' !! "0::CalibrationCube"
        = Some {[ "plateIndex" := VNum 0; "objectName" := VStr "CalibrationCube" ]}.
Proof.
  intros model. split.
  - destruct (noop_change_suppressed (H := ExampleHost.host) ExampleHost.t model
                (Examples.absolute_change "top_layers" (VNum 4))
                (VStr "top_layers") [] eq_refl) as [Hglobal _].
    edestruct Hglobal as [Happlied _]; [reflexivity..|exact Happlied].
  - destruct (noop_change_suppressed (H := ExampleHost.host) ExampleHost.t model
                (Examples.object_change Examples.cube_target "wall_line_count"
                   (VNum 2) "absolute")
                (VStr "wall_line_count") [] eq_refl) as [_ Hobject].
    edestruct Hobject
      as (updated' & Happlied & _ & Hplates & Hglobal & _ & _ & Hkey & _);
      [reflexivity..|].
    exists updated'. repeat split; assumption.
Defined.

(** C2, as worded, fails: the relative change [bad] of [top_layers] for the
    object [CalibrationCube] computes the current value [4] itself, records no
    diff and writes no setting, yet a warning is added and the override store,
    empty before, holds a record for the object afterwards. *)
Lemma noop_change_warns_and_creates_record :
  let model := Examples.cube_model "CalibrationCube" in
  let change :=
    Examples.object_change Examples.cube_target "top_layers" (VStr "bad")
      "relative" in
  computeNewValue ExampleHost.t (VNum 4) change []
  = Ok (VNum 4, true, [VStr "relativeChangeTypeWarning top_layers"])
  ∧ same_value true (VNum 4) (VNum 4) = true
  ∧ perObjectOverrides model = ∅
  ∧ applyLlmChanges (H := ExampleHost.host) ExampleHost.t model
      (Examples.response_of [change]) true
    = Ok (set_perObjectOverrides
            {[ "0::CalibrationCube" :=
                 {[ "plateIndex" := VNum 0;
                    "objectName" := VStr "CalibrationCube" ]} ]}
            model,
          [VStr "relativeChangeTypeWarning top_layers"], []).
Proof. repeat split; vm_compute; reflexivity. Qed.

(** ** Object-scoped changes without a named target *)

Lemma findPlate_Some (plates : list Plate) (objectName plateIndex : value)
    (plate : Plate) :
  findPlate plates objectName plateIndex = Some plate →
  plate ∈ plates
  ∧ ∃ obj, obj ∈ plate_objects plate
           ∧ strict_equals (obj_name obj) objectName = true.
Proof.
  intros Hfind. apply find_some in Hfind as [Hin Hpredicate].
  split; [apply list_elem_of_In; exact Hin|].
  unfold findPlatePredicate in Hpredicate.
  destruct (negb (strict_equals plateIndex VNull)
            && negb (strict_equals (plate_index plate) plateIndex));
    [discriminate|].
  apply existsb_exists in Hpredicate as (obj & Hobj & Hname).
  exists obj. split; [apply list_elem_of_In; exact Hobj|exact Hname].
Qed.

Lemma findPlate_None (plates : list Plate) (objectName plateIndex : value) :
  (∀ plate obj, plate ∈ plates → obj ∈ plate_objects plate →
                strict_equals (obj_name obj) objectName = false) →
  findPlate plates objectName plateIndex = None.
Proof.
  intros Hnone. destruct (findPlate plates objectName plateIndex) as [plate|] eqn:Hfind;
    [|reflexivity].
  apply findPlate_Some in Hfind as (Hplate & obj & Hobj & Hname).
  rewrite (Hnone plate obj Hplate Hobj) in Hname. discriminate.
Qed.

(** C10. When the target of an object-scoped change is [null], absent, or has
    neither [objectName] nor [name], the object searched for is the change's
    parameter itself. If no plate holds an object with that very name the
    change gives the object-not-found warning, which reports the parameter as
    the object, and nothing else; and the change produces a diff only if some
    plate holds an object named like the parameter. *)
Theorem object_change_without_named_target `{JsHost} (t : translator)
    (updated : Normalized) (change target parameter : value)
    (warnings : list value) :
  get_member change "target" = Ok target →
  get_member change "parameter" = Ok parameter →
  is_nullish (opt_member target "objectName") = true →
  is_nullish (opt_member target "name") = true →
  resolveObjectTarget change
  = Ok (parameter, opt_member target "plateIndex" ?? VNull)
  ∧ ((∀ plate obj, plate ∈ plates updated → obj ∈ plate_objects plate →
                   strict_equals (obj_name obj) parameter = false) →
     applyObjectChange t updated change warnings
     = Ok (updated,
           warnings ++ [VStr (t "objectNotFoundWarning"
                                [("object", parameter); ("parameter", parameter)])],
           None))
  ∧ (∀ updated' warnings' diff,
       applyObjectChange t updated change warnings
       = Ok (updated', warnings', Some diff) →
       ∃ plate obj, plate ∈ plates updated ∧ obj ∈ plate_objects plate
                    ∧ strict_equals (obj_name obj) parameter = true).
Proof.
  intros Htarget Hparameter HobjectName Hname.
  assert (resolveObjectTarget change
          = Ok (parameter, opt_member target "plateIndex" ?? VNull)) as Hresolve.
  { unfold resolveObjectTarget. rewrite Htarget, Hparameter. cbn.
    do 2 f_equal. unfold nullish_or. rewrite HobjectName. cbv iota.
    rewrite Hname. reflexivity. }
  split; [exact Hresolve|]. split.
  - intros Hnone. unfold applyObjectChange. rewrite Hresolve, Hparameter. cbn.
    rewrite (findPlate_None _ _ _ Hnone). reflexivity.
  - intros updated' warnings' diff. unfold applyObjectChange.
    rewrite Hresolve, Hparameter. cbn.
    destruct (findPlate (plates updated) parameter
                (opt_member target "plateIndex" ?? VNull)) as [plate|] eqn:Hfind.
    + intros _. apply findPlate_Some in Hfind as (Hplate & obj & Hobj & Hnamed).
      exists plate, obj. auto.
    + discriminate.
Qed.

(** The repository's test: the change [supports_enabled] without a target is
    reported as the missing object [supports_enabled]. On a plate holding an
    object named [wall_line_count], the change of that parameter is applied
    to that object. *)
Lemma object_change_without_named_target_witness :
  applyObjectChange (H := ExampleHost.host) ExampleHost.t
    (Examples.cube_model "CalibrationCube")
    (Examples.object_change VUndefined "supports_enabled" (VBool true) "absolute") []
  = Ok (Examples.cube_model "CalibrationCube",
        [VStr "objectNotFoundWarning supports_enabled supports_enabled"], None)
  ∧ ∃ plate obj,
      plate ∈ plates (Examples.cube_model "wall_line_count")
      ∧ obj ∈ plate_objects plate
      ∧ strict_equals (obj_name obj) (VStr "wall_line_count") = true.
Proof.
  split.
  - refine (proj1 (proj2 (object_change_without_named_target
                            (H := ExampleHost.host) ExampleHost.t
                            (Examples.cube_model "CalibrationCube")
                            (Examples.object_change VUndefined "supports_enabled"
                               (VBool true) "absolute")
                            VUndefined (VStr "supports_enabled") []
                            eq_refl eq_refl eq_refl eq_refl)) _).
    intros plate obj Hplate Hobj.
    apply list_elem_of_singleton in Hplate as ->.
    apply list_elem_of_singleton in Hobj as ->. reflexivity.
  - refine (proj2 (proj2 (object_change_without_named_target
                            (H := ExampleHost.host) ExampleHost.t
                            (Examples.cube_model "wall_line_count")
                            (Examples.object_change VNull "wall_line_count"
                               (VNum 4) "absolute")
                            VNull (VStr "wall_line_count") []
                            eq_refl eq_refl eq_refl eq_refl))
                   _ _ _ _).
    vm_compute. reflexivity.
Defined.

(** ** What applying the changes keeps *)

Ltac split_conjunctions :=
  repeat match goal with
         | |- _ ∧ _ => split
         end.

Lemma update_first_map {A B} (g : A → B) (p : A → bool) (f : A → A) (l : list A) :
  (∀ x, g (f x) = g x) → map g (update_first p f l) = map g l.
Proof.
  intros Hg. induction l as [|x l IH]; [reflexivity|].
  cbn [update_first]. destruct (p x); cbn [map]; [rewrite Hg|rewrite IH]; reflexivity.
Qed.

Lemma syncPlateOverride_skeleton `{JsHost} (plate : Plate)
    (objectName parameter v : value) :
  plate_index (syncPlateOverride plate objectName parameter v) = plate_index plate
  ∧ plate_name (syncPlateOverride plate objectName parameter v) = plate_name plate
  ∧ map (λ obj, (obj_name obj, obj_plateIndex obj, obj_geometry obj))
      (plate_objects (syncPlateOverride plate objectName parameter v))
    = map (λ obj, (obj_name obj, obj_plateIndex obj, obj_geometry obj))
        (plate_objects plate).
Proof.
  split; [reflexivity|]. split; [reflexivity|].
  unfold syncPlateOverride. cbn [plate_objects].
  apply update_first_map. reflexivity.
Qed.

Lemma computeNewValue_added (t : translator) (currentValue change : value)
    (warnings : list value) (proposed : value) (alias : bool)
    (warnings' : list value) :
  computeNewValue t currentValue change warnings = Ok (proposed, alias, warnings') →
  ∃ added, warnings' = warnings ++ added ∧ length added ≤ 1.
Proof.
  unfold computeNewValue.
  destruct (get_member change "changeType") as [changeType|]; [|discriminate].
  destruct (get_member change "newValue") as [newValue|]; [|discriminate].
  cbn [mbind result_bind]. destruct (strict_equals changeType (VStr "relative")).
  - destruct currentValue, newValue;
      try (destruct (get_member change "parameter"); [|discriminate]);
      cbn [mbind result_bind]; intros [= <- <- <-];
      first [ exists []; rewrite app_nil_r; split; [reflexivity|cbn; lia]
            | eexists [_]; split; [reflexivity|cbn; lia] ].
  - intros [= <- <- <-]. exists []. rewrite app_nil_r. split; [reflexivity|cbn; lia].
Qed.

Lemma applyGlobalChange_frame `{JsHost} (t : translator) (updated : Normalized)
    (change : value) (warnings : list value) (updated' : Normalized)
    (warnings' : list value) (diff : option Diff) :
  applyGlobalChange t updated change warnings = Ok (updated', warnings', diff) →
  projectInfo updated' = projectInfo updated
  ∧ plates updated' = plates updated
  ∧ perObjectOverrides updated' = perObjectOverrides updated
  ∧ userModifiedSettings updated' = userModifiedSettings updated
  ∧ ∃ added, warnings' = warnings ++ added ∧ length added ≤ 1.
Proof.
  unfold applyGlobalChange.
  destruct (get_member change "parameter") as [parameter|]; [|discriminate].
  cbn [mbind result_bind].
  destruct (resolveParameter (globalProcess updated) parameter)
    as [[currentValue setter]|]; [|discriminate].
  cbn [mbind result_bind].
  destruct (strict_equals currentValue VUndefined).
  { intros [= <- <- <-]. split_conjunctions; try reflexivity.
    eexists [_]. split; [reflexivity|cbn; lia]. }
  destruct (computeNewValue t currentValue change warnings)
    as [[[proposed alias] warnings1]|] eqn:Hcompute; [|discriminate].
  cbn [mbind result_bind].
  apply computeNewValue_added in Hcompute.
  destruct (same_value alias proposed currentValue).
  { intros [= <- <- <-]. split_conjunctions; try reflexivity. exact Hcompute. }
  destruct (formatDiff change currentValue proposed "global" VNull); [|discriminate].
  cbn [mbind result_bind]. intros [= <- <- <-].
  split_conjunctions; try reflexivity. exact Hcompute.
Qed.

Lemma applyObjectChange_frame `{JsHost} (t : translator) (updated : Normalized)
    (change : value) (warnings : list value) (updated' : Normalized)
    (warnings' : list value) (diff : option Diff) :
  applyObjectChange t updated change warnings = Ok (updated', warnings', diff) →
  projectInfo updated' = projectInfo updated
  ∧ globalProcess updated' = globalProcess updated
  ∧ userModifiedSettings updated' = userModifiedSettings updated
  ∧ map (λ plate, (plate_index plate, plate_name plate,
                   map (λ obj, (obj_name obj, obj_plateIndex obj, obj_geometry obj))
                     (plate_objects plate)))
      (plates updated')
    = map (λ plate, (plate_index plate, plate_name plate,
                     map (λ obj, (obj_name obj, obj_plateIndex obj, obj_geometry obj))
                       (plate_objects plate)))
        (plates updated)
  ∧ ∃ added, warnings' = warnings ++ added ∧ length added ≤ 1.
Proof.
  unfold applyObjectChange.
  destruct (resolveObjectTarget change) as [[targetName plateIndex]|]; [|discriminate].
  cbn [mbind result_bind].
  destruct (get_member change "parameter") as [parameter|]; [|discriminate].
  cbn [mbind result_bind].
  destruct (findPlate (plates updated) targetName plateIndex) as [plate|].
  2: { intros [= <- <- <-]. split_conjunctions; try reflexivity.
       eexists [_]. split; [reflexivity|cbn; lia]. }
  destruct (ensureObjectOverride _ _ _) as [overrides override].
  destruct (resolveParameter override parameter) as [[currentValue setter]|];
    [|discriminate].
  cbn [mbind result_bind].
  match goal with
  | |- context [mbind _ ?m] => destruct m as [baseValue|]; [|discriminate]
  end.
  cbn [mbind result_bind].
  destruct (strict_equals baseValue VUndefined).
  { intros [= <- <- <-]. split_conjunctions; try reflexivity.
    eexists [_]. split; [reflexivity|cbn; lia]. }
  destruct (computeNewValue t baseValue change warnings)
    as [[[proposed alias] warnings1]|] eqn:Hcompute; [|discriminate].
  cbn [mbind result_bind].
  apply computeNewValue_added in Hcompute.
  destruct (same_value alias proposed baseValue).
  { intros [= <- <- <-]. split_conjunctions; try reflexivity. exact Hcompute. }
  destruct (formatDiff _ _ _ _ _); [|discriminate].
  cbn [mbind result_bind]. intros [= <- <- <-].
  split_conjunctions; try reflexivity; [|exact Hcompute].
  cbn [plates set_plates]. apply update_first_map. intros plate'.
  destruct (syncPlateOverride_skeleton plate' targetName parameter proposed)
    as (-> & -> & ->). reflexivity.
Qed.

Lemma applyLlmChanges_step_frame `{JsHost} (t : translator)
    (respectUserSettings : bool) (userModified : UserModifiedLookup)
    (updated : Normalized) (warnings : list value) (diffs : list Diff)
    (change : value) (updated' : Normalized) (warnings' : list value)
    (diffs' : list Diff) :
  applyLlmChanges_step t respectUserSettings userModified
    (updated, warnings, diffs) change = Ok (updated', warnings', diffs') →
  projectInfo updated' = projectInfo updated
  ∧ userModifiedSettings updated' = userModifiedSettings updated
  ∧ map (λ plate, (plate_index plate, plate_name plate,
                   map (λ obj, (obj_name obj, obj_plateIndex obj, obj_geometry obj))
                     (plate_objects plate)))
      (plates updated')
    = map (λ plate, (plate_index plate, plate_name plate,
                     map (λ obj, (obj_name obj, obj_plateIndex obj, obj_geometry obj))
                       (plate_objects plate)))
        (plates updated)
  ∧ (∃ added, warnings' = warnings ++ added ∧ length added ≤ 1)
  ∧ (∃ recorded, diffs' = diffs ++ recorded ∧ length recorded ≤ 1).
Proof.
  unfold applyLlmChanges_step.
  match goal with
  | |- context [mbind _ ?m] => destruct m as [[|]|]; [| |discriminate]
  end; cbn [mbind result_bind].
  { destruct (get_member change "parameter"); [|discriminate].
    cbn [mbind result_bind]. intros [= <- <- <-]. split_conjunctions; try reflexivity.
    - eexists [_]. split; [reflexivity|cbn; lia].
    - exists []. rewrite app_nil_r. split; [reflexivity|cbn; lia]. }
  destruct (applySingleChange t updated change warnings)
    as [[[updated1 warnings1] diff]|] eqn:Hsingle; [|discriminate].
  cbn [mbind result_bind]. intros [= <- <- <-].
  assert (∃ recorded, diffs ++ option_list diff = diffs ++ recorded
                      ∧ length recorded ≤ 1) as Hdiffs.
  { exists (option_list diff). split; [reflexivity|]. destruct diff; cbn; lia. }
  unfold applySingleChange in Hsingle.
  destruct (get_member change "scope") as [scope0|]; [|discriminate].
  cbn [mbind result_bind] in Hsingle.
  destruct (strict_equals _ _).
  - apply applyGlobalChange_frame in Hsingle as (-> & -> & _ & -> & Hadded).
    split_conjunctions; try reflexivity; assumption.
  - apply applyObjectChange_frame in Hsingle as (-> & _ & -> & -> & Hadded).
    split_conjunctions; try reflexivity; assumption.
Qed.

Lemma applyLlmChanges_loop_frame `{JsHost} (t : translator)
    (respectUserSettings : bool) (userModified : UserModifiedLookup)
    (changes : list value)
    (updated : Normalized) (warnings : list value) (diffs : list Diff)
    (updated' : Normalized) (warnings' : list value) (diffs' : list Diff) :
  applyLlmChanges_loop t respectUserSettings userModified
    (updated, warnings, diffs) changes = Ok (updated', warnings', diffs') →
  projectInfo updated' = projectInfo updated
  ∧ userModifiedSettings updated' = userModifiedSettings updated
  ∧ map (λ plate, (plate_index plate, plate_name plate,
                   map (λ obj, (obj_name obj, obj_plateIndex obj, obj_geometry obj))
                     (plate_objects plate)))
      (plates updated')
    = map (λ plate, (plate_index plate, plate_name plate,
                     map (λ obj, (obj_name obj, obj_plateIndex obj, obj_geometry obj))
                       (plate_objects plate)))
        (plates updated)
  ∧ (∃ added, warnings' = warnings ++ added ∧ length added ≤ length changes)
  ∧ (∃ recorded, diffs' = diffs ++ recorded ∧ length recorded ≤ length changes).
Proof.
  revert updated warnings diffs.
  induction changes as [|change rest IH]; intros updated warnings diffs.
  - intros [= <- <- <-]. split_conjunctions; try reflexivity;
      (exists []; rewrite app_nil_r; split; [reflexivity|cbn; lia]).
  - cbn [applyLlmChanges_loop].
    destruct (applyLlmChanges_step _ _ _ _ _) as [[[updated1 warnings1] diffs1]|]
      eqn:Hstep; [|discriminate].
    cbn [mbind result_bind]. intros Hrest.
    apply applyLlmChanges_step_frame in Hstep
      as (Hinfo1 & Huser1 & Hplates1 & (added1 & -> & Hadded1)
          & (recorded1 & -> & Hrecorded1)).
    apply IH in Hrest
      as (Hinfo & Huser & Hplates & (added & -> & Hadded)
          & (recorded & -> & Hrecorded)).
    split; [congruence|]. split; [congruence|]. split; [congruence|]. split.
    + exists (added1 ++ added). rewrite app_assoc. split; [reflexivity|].
      rewrite length_app. cbn [length]. lia.
    + exists (recorded1 ++ recorded). rewrite app_assoc. split; [reflexivity|].
      rewrite length_app. cbn [length]. lia.
Qed.

(** The loop over a list of changes made of two parts. *)
Lemma applyLlmChanges_loop_app `{JsHost} (t : translator)
    (respectUserSettings : bool) (userModified : UserModifiedLookup)
    (first second : list value) (state : Normalized * list value * list Diff) :
  applyLlmChanges_loop t respectUserSettings userModified state (first ++ second)
  = (state' ← applyLlmChanges_loop t respectUserSettings userModified state first;
     applyLlmChanges_loop t respectUserSettings userModified state' second).
Proof.
  revert state. induction first as [|change first IH]; intros state; [reflexivity|].
  cbn [app applyLlmChanges_loop].
  destruct (applyLlmChanges_step _ _ _ _ _) as [state'|]; cbn [mbind result_bind];
    [apply IH|reflexivity].
Qed.

Lemma applyLlmChanges_loop_diffs `{JsHost} (t : translator)
    (respectUserSettings : bool) (userModified : UserModifiedLookup)
    (changes : list value) (updated : Normalized) (warnings : list value)
    (earlier diffs : list Diff) :
  applyLlmChanges_loop t respectUserSettings userModified
    (updated, warnings, earlier ++ diffs) changes
  = ('(updated', warnings', diffs') ←
       applyLlmChanges_loop t respectUserSettings userModified
         (updated, warnings, diffs) changes;
     Ok (updated', warnings', earlier ++ diffs')).
Proof.
  revert updated warnings diffs.
  induction changes as [|change rest IH]; intros updated warnings diffs;
    [reflexivity|].
  cbn [applyLlmChanges_loop]. unfold applyLlmChanges_step.
  match goal with
  | |- context [mbind _ ?m] => destruct m as [[|]|]
  end; cbn [mbind result_bind]; [| |reflexivity].
  - destruct (get_member change "parameter"); cbn [mbind result_bind];
      [apply IH|reflexivity].
  - destruct (applySingleChange t updated change warnings)
      as [[[updated1 warnings1] diff]|]; cbn [mbind result_bind]; [|reflexivity].
    rewrite <- app_assoc. apply IH.
Qed.

(** ** Protection of user-modified settings *)

(** The parser extracts non-empty strings only: every entry of the
    user-modified settings of a parsed project is truthy. *)
Lemma extractUserModifiedSettings_truthy (configData : value) :
  Forall (λ entry, truthy entry = true) (extractUserModifiedSettings configData).
Proof.
  unfold extractUserModifiedSettings.
  destruct (opt_member configData "different_settings_to_system")
    as [| | | | |different|]; try constructor.
  apply Forall_forall. intros entry Hentry.
  apply list_elem_of_fmap in Hentry as (k & -> & Hk).
  apply set_of_list_spec, list_elem_of_In, in_flat_map in Hk
    as (group & _ & Hk).
  destruct group as [| | | |s| |]; try contradiction.
  apply list_elem_of_In, list_elem_of_filter in Hk as [Hk _].
  cbn. apply String.eqb_neq in Hk. rewrite Hk. reflexivity.
Qed.

(** Every truthy entry of [userModifiedSettings] is in the lookup, as the
    string it converts to and as its normalized key. *)
Lemma buildUserModifiedLookup_fold `{JsHost} (entries : list value)
    (start : UserModifiedLookup) :
  let step := λ lookup entry,
    if negb (truthy entry) then lookup
    else
      let key := ToString entry in
      {| raw := raw lookup ∪ {[ key ]};
         normalized := normalized lookup ∪ {[ normalizeSettingKey (VStr key) ]} |} in
  let final := fold_left step entries start in
  raw start ⊆ raw final
  ∧ normalized start ⊆ normalized final
  ∧ ∀ entry, entry ∈ entries → truthy entry = true →
      ToString entry ∈ raw final
      ∧ normalizeSettingKey entry ∈ normalized final.
Proof.
  revert start. induction entries as [|e entries IH]; intros start step final.
  - split; [reflexivity|]. split; [reflexivity|].
    intros entry Hin. inversion Hin.
  - subst final. cbn [fold_left].
    destruct (IH (step start e)) as (Hraw & Hnorm & Hin).
    assert (raw start ⊆ raw (step start e)
            ∧ normalized start ⊆ normalized (step start e)) as [Hr Hn].
    { subst step. cbn beta. destruct (negb (truthy e)); cbn; set_solver. }
    split; [set_solver|]. split; [set_solver|].
    intros entry Hentry Htruthy.
    apply elem_of_cons in Hentry as [->|Hentry]; [|apply Hin; assumption].
    assert (ToString e ∈ raw (step start e)
            ∧ normalizeSettingKey e ∈ normalized (step start e)) as [? ?].
    { subst step. cbn beta. rewrite Htruthy. cbn. split; set_solver. }
    split; set_solver.
Qed.

Lemma isUserSettingLocked_match `{JsHost} (entries : list value)
    (entry parameter : value) :
  entry ∈ entries →
  truthy entry = true →
  parameter = VStr (ToString entry)
  ∨ normalizeSettingKey parameter = normalizeSettingKey entry →
  isUserSettingLocked parameter (buildUserModifiedLookup entries) = true.
Proof.
  intros Hentry Htruthy Hmatch.
  destruct (buildUserModifiedLookup_fold entries {| raw := ∅; normalized := ∅ |})
    as (_ & _ & Hin).
  destruct (Hin entry Hentry Htruthy) as [Hraw Hnorm].
  fold (buildUserModifiedLookup entries) in Hraw, Hnorm.
  unfold isUserSettingLocked.
  case_bool_decide as Hsize.
  { apply size_empty_inv in Hsize. set_solver. }
  destruct Hmatch as [->|Hmatch].
  - rewrite bool_decide_eq_true_2; [reflexivity|assumption].
  - destruct (match parameter with VStr p => _ | _ => false end); [reflexivity|].
    rewrite Hmatch. apply bool_decide_eq_true_2. assumption.
Qed.

(** One iteration of the loop on a locked change, and on any change when
    enforcement is disabled. *)
Lemma applyLlmChanges_step_locked `{JsHost} (t : translator)
    (entries : list value) (entry change parameter : value)
    (updated : Normalized) (warnings : list value) (diffs : list Diff) :
  entry ∈ entries →
  truthy entry = true →
  get_member change "parameter" = Ok parameter →
  parameter = VStr (ToString entry)
  ∨ normalizeSettingKey parameter = normalizeSettingKey entry →
  applyLlmChanges_step t true (buildUserModifiedLookup entries)
    (updated, warnings, diffs) change
  = Ok (updated,
        warnings ++ [VStr (t "userSettingLockedWarning" [("parameter", parameter)])],
        diffs).
Proof.
  intros Hentry Htruthy Hparameter Hmatch.
  unfold applyLlmChanges_step. rewrite Hparameter. cbn [mbind result_bind].
  rewrite (isUserSettingLocked_match entries entry parameter Hentry Htruthy Hmatch).
  reflexivity.
Qed.

(** With enforcement disabled the lookup is never consulted. *)
Lemma applyLlmChanges_loop_unenforced `{JsHost} (t : translator)
    (userModified userModified' : UserModifiedLookup)
    (state : Normalized * list value * list Diff) (changes : list value) :
  applyLlmChanges_loop t false userModified state changes
  = applyLlmChanges_loop t false userModified' state changes.
Proof.
  revert state. induction changes as [|change rest IH]; intros state; [reflexivity|].
  cbn [applyLlmChanges_loop].
  change (applyLlmChanges_step t false userModified state change)
    with (applyLlmChanges_step t false userModified' state change).
  destruct (applyLlmChanges_step t false userModified' state change);
    cbn [mbind result_bind]; [apply IH|reflexivity].
Qed.

(** C7. A change whose parameter matches a (truthy) entry of the model's
    [userModifiedSettings], exactly or after normalizing both sides, is
    skipped by [applyLlmChanges] when [respectUserSettings] is enabled: wherever
    it stands among the changes of the response, the result is the one of
    applying the changes before it, adding one locked-setting warning, and
    applying the changes after it; the change itself alters neither the model
    nor the diffs. When [respectUserSettings] is disabled the change is handed
    to [applySingleChange] like any other. For a response made of that change
    alone: enabled, the model is returned as it was, with the warning and no
    diff; disabled, the result is the one of [applySingleChange]. *)
Theorem locked_change_skipped_only_when_enforced `{JsHost} (t : translator)
    (normalized : Normalized) (before after : list value)
    (change entry parameter version globalRationale given : value) :
  entry ∈ default [] (userModifiedSettings normalized) →
  truthy entry = true →
  get_member change "parameter" = Ok parameter →
  parameter = VStr (ToString entry)
  ∨ normalizeSettingKey parameter = normalizeSettingKey entry →
  let response changes warnings :=
    {| version := version; changes := changes;
       globalRationale := globalRationale; warnings := warnings |} in
  let locked :=
    VStr (t "userSettingLockedWarning" [("parameter", parameter)]) in
  applyLlmChanges t normalized (response (before ++ change :: after) given) true
  = ('(updated1, warnings1, diffs1) ←
       applyLlmChanges t normalized (response before given) true;
     '(updated2, warnings2, diffs2) ←
       applyLlmChanges t updated1
         (response after (VArr (warnings1 ++ [locked]))) true;
     Ok (updated2, warnings2, diffs1 ++ diffs2))
  ∧ applyLlmChanges t normalized (response (before ++ change :: after) given) false
    = ('(updated1, warnings1, diffs1) ←
         applyLlmChanges t normalized (response before given) false;
       '(updated', warnings', diff) ←
         applySingleChange t updated1 change warnings1;
       '(updated2, warnings2, diffs2) ←
         applyLlmChanges t updated' (response after (VArr warnings')) false;
       Ok (updated2, warnings2, diffs1 ++ option_list diff ++ diffs2))
  ∧ (∀ notes,
       applyLlmChanges t normalized (response [change] (VArr notes)) true
       = Ok (normalized, notes ++ [locked], [])
       ∧ applyLlmChanges t normalized (response [change] (VArr notes)) false
         = ('(updated', warnings', diff) ←
              applySingleChange t normalized change notes;
            Ok (updated', warnings', option_list diff))).
Proof.
  intros Hentry Htruthy Hparameter Hmatch response locked.
  split; [|split].
  - unfold applyLlmChanges, response. cbn [warnings changes].
    destruct (spread_iterable (given ?? VArr [])) as [notes|];
      cbn [mbind result_bind]; [|reflexivity].
    rewrite applyLlmChanges_loop_app.
    destruct (applyLlmChanges_loop _ _ _ (normalized, notes, []) before)
      as [[[updated1 warnings1] diffs1]|] eqn:Hbefore; cbn [mbind result_bind];
      [|reflexivity].
    apply applyLlmChanges_loop_frame in Hbefore as (_ & Huser & _).
    rewrite Huser. cbn [applyLlmChanges_loop].
    rewrite (applyLlmChanges_step_locked t _ entry change parameter updated1
               warnings1 diffs1 Hentry Htruthy Hparameter Hmatch).
    cbn [mbind result_bind].
    rewrite <- (app_nil_r diffs1) at 1. rewrite applyLlmChanges_loop_diffs.
    unfold nullish_or. cbn [is_nullish spread_iterable mbind result_bind].
    fold locked.
    destruct (applyLlmChanges_loop _ _ _ (updated1, warnings1 ++ [locked], []) after)
      as [[[updated2 warnings2] diffs2]|]; reflexivity.
  - unfold applyLlmChanges, response. cbn [warnings changes].
    destruct (spread_iterable (given ?? VArr [])) as [notes|];
      cbn [mbind result_bind]; [|reflexivity].
    rewrite applyLlmChanges_loop_app.
    destruct (applyLlmChanges_loop _ _ _ (normalized, notes, []) before)
      as [[[updated1 warnings1] diffs1]|]; cbn [mbind result_bind];
      [|reflexivity].
    cbn [applyLlmChanges_loop]. unfold applyLlmChanges_step.
    cbn [mbind result_bind].
    destruct (applySingleChange t updated1 change warnings1)
      as [[[updated' warnings'] diff]|]; cbn [mbind result_bind]; [|reflexivity].
    unfold nullish_or. cbn [is_nullish spread_iterable mbind result_bind].
    rewrite (applyLlmChanges_loop_unenforced t _
               (buildUserModifiedLookup
                  (default [] (userModifiedSettings updated')))).
    rewrite <- (app_nil_r (diffs1 ++ option_list diff)).
    rewrite applyLlmChanges_loop_diffs.
    destruct (applyLlmChanges_loop _ _ _ (updated', warnings', []) after)
      as [[[updated2 warnings2] diffs2]|]; cbn [mbind result_bind];
      [rewrite <- app_assoc|]; reflexivity.
  - intros notes. unfold applyLlmChanges, response. cbn [warnings changes].
    unfold nullish_or.
    cbn [is_nullish spread_iterable mbind result_bind applyLlmChanges_loop].
    rewrite (applyLlmChanges_step_locked t _ entry change parameter normalized
               notes [] Hentry Htruthy Hparameter Hmatch).
    split; [reflexivity|].
    unfold applyLlmChanges_step. cbn [mbind result_bind].
    destruct (applySingleChange t normalized change notes)
      as [[[updated' warnings'] diff]|]; reflexivity.
Qed.

(** The two lock tests of the repository: the entry [fan-speed-percent] of
    the model locks the parameter [fan_speed_percent]; without enforcement
    the change to [60] is applied. *)
Lemma locked_change_skipped_only_when_enforced_witness :
  let model := Examples.fan_model [VStr "fan-speed-percent"] 25 in
  let change := Examples.absolute_change "fan_speed_percent" (VNum 60) in
  applyLlmChanges (H := ExampleHost.host) ExampleHost.t model
    (Examples.response_of [change]) true
  = Ok (model, [VStr "userSettingLockedWarning fan_speed_percent"], [])
  ∧ applyLlmChanges (H := ExampleHost.host) ExampleHost.t model
      (Examples.response_of [change]) false
    = Ok (Examples.fan_model [VStr "fan-speed-percent"] 60, [],
          [ {| scope := "global"; target := VNull;
               parameter := VStr "fan_speed_percent";
               from := VNum 25; to := VNum 60; reason := VStr "" |} ]).
Proof.
  intros model change.
  assert (VStr "fan-speed-percent" ∈ default [] (userModifiedSettings model))
    as Hentry by (apply list_elem_of_singleton; reflexivity).
  assert (get_member change "parameter" = Ok (VStr "fan_speed_percent"))
    as Hparameter by (vm_compute; reflexivity).
  assert (normalizeSettingKey (H := ExampleHost.host) (VStr "fan_speed_percent")
          = normalizeSettingKey (H := ExampleHost.host) (VStr "fan-speed-percent"))
    as Hmatch by (vm_compute; reflexivity).
  destruct (locked_change_skipped_only_when_enforced (H := ExampleHost.host)
              ExampleHost.t model [] [] change (VStr "fan-speed-percent")
              (VStr "fan_speed_percent") (VNum 1) VUndefined (VArr [])
              Hentry eq_refl Hparameter (or_intror Hmatch)) as (_ & _ & Hsingle).
  destruct (Hsingle []) as [Hon Hoff].
  split.
  - exact Hon.
  - etransitivity; [exact Hoff|]. vm_compute. reflexivity.
Defined.

(** ** Exceptions while applying changes *)

Lemma resolveParameter_string `{JsHost} (container : gmap string value)
    (p : string) :
  ∃ currentValue setter,
    resolveParameter container (VStr p) = Ok (currentValue, setter).
Proof.
  unfold resolveParameter, parseSpeedKey.
  destruct (String.prefix SPEEDS_PARAMETER_PREFIX p); cbn; eauto.
Qed.

Lemma computeNewValue_object (t : translator) (currentValue : value)
    (props : gmap string value) (warnings : list value) :
  ∃ proposed alias warnings',
    computeNewValue t currentValue (VObj props) warnings
    = Ok (proposed, alias, warnings').
Proof.
  unfold computeNewValue. cbn [get_member mbind result_bind].
  destruct (strict_equals _ _); [|eauto].
  destruct currentValue, (own props "newValue"); cbn; eauto.
Qed.

Lemma applySingleChange_string_parameter `{JsHost} (t : translator)
    (updated : Normalized) (props : gmap string value) (p : string)
    (warnings : list value) :
  own props "parameter" = VStr p →
  ∃ outcome, applySingleChange t updated (VObj props) warnings = Ok outcome.
Proof.
  intros Hparameter. unfold applySingleChange. cbn [get_member mbind result_bind].
  destruct (strict_equals _ _).
  - unfold applyGlobalChange. cbn [get_member mbind result_bind].
    rewrite Hparameter.
    destruct (resolveParameter_string (globalProcess updated) p)
      as (currentValue & setter & ->).
    cbn [mbind result_bind].
    destruct (strict_equals currentValue VUndefined); [eauto|].
    destruct (computeNewValue_object t currentValue props warnings)
      as (proposed & alias & warnings' & ->).
    cbn [mbind result_bind]. destruct (same_value _ _ _); cbn; eauto.
  - unfold applyObjectChange, resolveObjectTarget.
    cbn [get_member mbind result_bind]. rewrite Hparameter.
    destruct (findPlate _ _ _) as [plate|]; [|eauto].
    destruct (ensureObjectOverride _ _ _) as [overrides override].
    destruct (resolveParameter_string override p)
      as (currentValue & setter & ->).
    cbn [mbind result_bind].
    destruct (resolveParameter_string
                (globalProcess (set_perObjectOverrides overrides updated)) p)
      as (globalValue & globalSetter & HglobalValue).
    destruct (strict_equals currentValue VUndefined).
    + rewrite HglobalValue. cbn [mbind result_bind].
      destruct (strict_equals globalValue VUndefined); [eauto|].
      destruct (computeNewValue_object t globalValue props warnings)
        as (proposed & alias & warnings' & ->).
      cbn [mbind result_bind]. destruct (same_value _ _ _); cbn; eauto.
    + cbn [mbind result_bind].
      destruct (strict_equals currentValue VUndefined); [eauto|].
      destruct (computeNewValue_object t currentValue props warnings)
        as (proposed & alias & warnings' & ->).
      cbn [mbind result_bind]. destruct (same_value _ _ _); cbn; eauto.
Qed.

(** For a response whose changes are objects with a string for parameter and
    whose warnings are an array, [applyLlmChanges] returns: every problem of
    a single change ends in a warning, none in an exception. *)
Lemma applyLlmChanges_returns `{JsHost} (t : translator) (normalized : Normalized)
    (response : LlmResponse) (respectUserSettings : bool) (notes : list value) :
  warnings response = VArr notes →
  Forall (λ change, ∃ props p, change = VObj props
                               ∧ own props "parameter" = VStr p)
    (changes response) →
  ∃ outcome, applyLlmChanges t normalized response respectUserSettings = Ok outcome.
Proof.
  intros Hnotes Hchanges. unfold applyLlmChanges. rewrite Hnotes.
  cbn [nullish_or is_nullish spread_iterable mbind result_bind].
  generalize (buildUserModifiedLookup (default [] (userModifiedSettings normalized))).
  intros userModified.
  generalize (normalized, notes, @nil Diff).
  induction Hchanges as [|change rest (props & p & -> & Hparameter) _ IH];
    intros state; cbn [applyLlmChanges_loop]; [eauto|].
  assert (∃ state', applyLlmChanges_step t respectUserSettings userModified state
                      (VObj props) = Ok state') as [state' ->].
  { destruct state as [[updated warnings] diffs]. unfold applyLlmChanges_step.
    cbn [get_member mbind result_bind].
    destruct respectUserSettings; cbn [mbind result_bind].
    - destruct (isUserSettingLocked _ _); [eauto|].
      destruct (applySingleChange_string_parameter t updated props p warnings
                  Hparameter) as ([[updated' warnings'] diff] & ->).
      cbn. eauto.
    - destruct (applySingleChange_string_parameter t updated props p warnings
                  Hparameter) as ([[updated' warnings'] diff] & ->).
      cbn. eauto. }
  cbn [mbind result_bind]. apply IH.
Qed.

(** C4. A response whose change has the number [5] for its parameter passes
    validation, and applying it throws [TypeError]: [parseSpeedKey] calls
    [startsWith] on the number. *)
Theorem applyLlmChanges_throws_on_validated_response `{JsHost} (t : translator)
    (respectUserSettings : bool) :
  ∃ response,
    parseLlmResponse Examples.response_with_numeric_parameter = Ok response
    ∧ applyLlmChanges t Examples.infill_model response respectUserSettings
      = Throw TypeError.
Proof.
  eexists. split; [vm_compute; reflexivity|].
  destruct respectUserSettings; vm_compute; reflexivity.
Qed.

(** ** Resolution of duplicate mappings *)

(** The loop over the mappings: a canonical key already populated keeps its
    value, any other one takes the parse of its first non-null mapping. *)
Lemma mapGlobalProcess_fold_lookup (config : gmap string value)
    (mappings : list Mapping) (next : gmap string value) (populated : gset string)
    (canonicalKey : string) :
  (fold_left (mapGlobalProcess_step config) mappings (next, populated)).1
    !! canonicalKey
  = if bool_decide (canonicalKey ∈ populated) then next !! canonicalKey
    else match Specified.first_non_null_mapping config canonicalKey mappings with
         | Some mapping => Some (parse mapping (own config (configKey mapping)))
         | None => next !! canonicalKey
         end.
Proof.
  revert next populated.
  induction mappings as [|mapping mappings IH]; intros next populated.
  - cbn. destruct (bool_decide _); reflexivity.
  - cbn [fold_left Specified.first_non_null_mapping find].
    fold (Specified.first_non_null_mapping config canonicalKey mappings).
    unfold mapGlobalProcess_step at 2.
    destruct (is_nullish (parse mapping (own config (configKey mapping))))
      eqn:Hparsed.
    { rewrite IH, andb_false_r. reflexivity. }
    cbn [negb]. rewrite andb_true_r.
    case_bool_decide as Hpopulated.
    { rewrite IH. case_bool_decide as Hkey; [reflexivity|].
      destruct (String.eqb_spec (targetKey mapping) canonicalKey) as [Heq|Hne];
        [congruence|reflexivity]. }
    rewrite IH.
    destruct (String.eqb_spec (targetKey mapping) canonicalKey) as [Heq|Hne].
    + subst canonicalKey.
      rewrite bool_decide_eq_true_2 by set_solver.
      rewrite (bool_decide_eq_false_2 _ Hpopulated).
      apply lookup_insert_eq.
    + rewrite lookup_insert_ne by exact Hne.
      case_bool_decide as Hin; case_bool_decide as Hin'; try reflexivity; set_solver.
Qed.

Lemma applyAdhesionFromConfig_lookup `{JsHost} (config settings : gmap string value)
    (key : string) :
  key ≠ "adhesion_type" →
  applyAdhesionFromConfig config settings !! key = settings !! key.
Proof.
  intros Hkey. unfold applyAdhesionFromConfig.
  repeat match goal with
         | |- context [if ?b then _ else _] => destruct b
         end; try reflexivity; apply lookup_insert_ne; congruence.
Qed.

Lemma applySpeedsFromConfig_lookup `{JsHost} (config settings : gmap string value)
    (key : string) :
  key ≠ "speeds" →
  applySpeedsFromConfig config settings !! key = settings !! key.
Proof.
  intros Hkey. unfold applySpeedsFromConfig.
  destruct (fold_left _ _ _) as [speeds [|]]; [|reflexivity].
  apply lookup_insert_ne. congruence.
Qed.

Lemma mergeRemainingConfig_lookup `{JsHost} (config settings : gmap string value)
    (key : string) :
  key ∉ ALLOWED_EXTRA_CONFIG_KEYS →
  mergeRemainingConfig config settings !! key = settings !! key.
Proof.
  intros Hkey. unfold mergeRemainingConfig.
  apply (map_fold_weak_ind (λ result _, result !! key = settings !! key));
    [reflexivity|].
  intros entry v visited result _ IH. unfold mergeRemainingConfig_step.
  repeat case_bool_decide; cbn; try exact IH.
  destruct (strict_equals (own result entry) VUndefined); cbn; [|exact IH].
  rewrite lookup_insert_ne by congruence. exact IH.
Qed.

(** No canonical key of the table is written by the later phases. *)
Lemma mapped_target_untouched_later `{JsHost} (mapping : Mapping) :
  mapping ∈ GLOBAL_PROCESS_MAPPINGS →
  targetKey mapping ≠ "adhesion_type"
  ∧ targetKey mapping ≠ "speeds"
  ∧ targetKey mapping ∉ ALLOWED_EXTRA_CONFIG_KEYS.
Proof.
  intros Hin.
  assert (forallb (λ m, bool_decide (targetKey m ≠ "adhesion_type"
                                     ∧ targetKey m ≠ "speeds"
                                     ∧ targetKey m ∉ ALLOWED_EXTRA_CONFIG_KEYS))
            GLOBAL_PROCESS_MAPPINGS = true) as Hall
    by (vm_compute; reflexivity).
  rewrite forallb_forall in Hall.
  apply list_elem_of_In, Hall, bool_decide_eq_true in Hin. exact Hin.
Qed.

(** C6. When several mapped vendor keys target one canonical key, the
    canonical value is the parse of the first mapping, in the declaration
    order of [GLOBAL_PROCESS_MAPPINGS], whose parse is not null; the later
    mappings to that key are skipped, whatever they hold. *)
Theorem mapConfigToSettings_first_non_null_wins `{JsHost}
    (config baseSettings : gmap string value) (canonicalKey : string)
    (mapping : Mapping) :
  Specified.first_non_null_mapping (normalizeConfigEntries config) canonicalKey
    GLOBAL_PROCESS_MAPPINGS = Some mapping →
  mapConfigToSettings config baseSettings !! canonicalKey
  = Some (parse mapping
            (own (normalizeConfigEntries config) (configKey mapping))).
Proof.
  intros Hfirst. unfold mapConfigToSettings.
  pose proof (mapGlobalProcess_fold_lookup (normalizeConfigEntries config)
                GLOBAL_PROCESS_MAPPINGS baseSettings ∅ canonicalKey) as Hloop.
  destruct (fold_left _ GLOBAL_PROCESS_MAPPINGS _) as [next populated].
  cbn [fst] in Hloop.
  rewrite bool_decide_eq_false_2 in Hloop by set_solver.
  rewrite Hfirst in Hloop.
  pose proof Hfirst as Hfound. apply find_some in Hfound as [Hin Htarget].
  apply andb_prop in Htarget as [Htarget _].
  apply String.eqb_eq in Htarget. subst canonicalKey.
  apply list_elem_of_In, mapped_target_untouched_later in Hin
    as (Hadhesion & Hspeeds & Hextra).
  rewrite mergeRemainingConfig_lookup by exact Hextra.
  rewrite applySpeedsFromConfig_lookup by exact Hspeeds.
  rewrite applyAdhesionFromConfig_lookup by exact Hadhesion.
  exact Hloop.
Qed.

(** Both bed temperature keys present: [eng_plate_temp] is declared first and
    gives [bed_temp_c], the different value of [hot_plate_temp] is ignored. *)
Lemma mapConfigToSettings_first_non_null_wins_witness :
  mapConfigToSettings (H := ExampleHost.host)
    {[ "eng_plate_temp" := VArr [VStr "80"];
       "hot_plate_temp" := VArr [VStr "55"] ]}
    {[ "bed_temp_c" := VNum 60 ]}
    !! "bed_temp_c"
  = Some (VNum 80).
Proof.
  exact (mapConfigToSettings_first_non_null_wins (H := ExampleHost.host)
           {[ "eng_plate_temp" := VArr [VStr "80"];
              "hot_plate_temp" := VArr [VStr "55"] ]}
           {[ "bed_temp_c" := VNum 60 ]}
           "bed_temp_c"
           {| configKey := "eng_plate_temp"; targetKey := "bed_temp_c";
              mapping_mode := shaped; parse := parseNumber;
              serialize := passthrough |}
           eq_refl).
Defined.

(** ** Geometry hints *)

(** A number above [4] is truthy: it is neither a zero nor [NaN]. *)
Lemma above_four_truthy (r : float) :
  (4 <? r)%float = true → number_truthy r = true.
Proof.
  unfold number_truthy, is_nan.
  rewrite !FloatAxioms.ltb_spec, !FloatAxioms.eqb_spec.
  replace (Prim2SF 4) with (S754_finite false 4503599627370496 (-50))
    by (vm_compute; reflexivity).
  replace (Prim2SF 0) with (S754_zero false) by (vm_compute; reflexivity).
  destruct (Prim2SF r) as [s|s| |s m e]; cbn.
  - discriminate.
  - destruct s; cbn; [discriminate|reflexivity].
  - discriminate.
  - intros _. unfold SFeqb, SFcompare.
    destruct s; cbn; rewrite Z.compare_refl, Pos.compare_refl; reflexivity.
Qed.

(** C3, as the code has it. For a bounding box [[x, y, z]], [is_slender] is
    [true] exactly when the smallest of the three extents is not zero and the
    ratio of the height [z] to that smallest extent exceeds [4]; when the
    smallest extent is zero the ratio is undefined and [is_slender] is
    [false]. *)
Theorem is_slender_height_to_smallest_extent (x y z : float) :
  is_slender <$> buildGeometryFromBounding (Some (x, y, z))
  = Some (let smallest := Math_min [x; y; z] in
          negb (smallest =? 0)%float && (4 <? z / smallest)%float).
Proof.
  cbn -[Math_min Math_max]. f_equal.
  destruct (Math_min [x; y; z] =? 0)%float; cbn -[Math_min]; [reflexivity|].
  destruct (4 <? z / Math_min [x; y; z])%float eqn:Habove.
  - rewrite (above_four_truthy _ Habove). reflexivity.
  - destruct (number_truthy _); reflexivity.
Qed.

(** C3, as worded, fails: for the box [[50, 5, 10]] the largest extent is ten
    times the smallest footprint extent, yet the height is only twice the
    smallest extent and the code answers [false]. *)
Lemma is_slender_not_largest_over_footprint :
  Specified.is_slender_as_specified 50 5 10 = true
  ∧ is_slender <$> buildGeometryFromBounding (Some (50, 5, 10)%float) = Some false.
Proof. split; vm_compute; reflexivity. Qed.

(** ** Shape of a written config entry *)

Lemma set_add_member (k : string) (s : list string) : k ∈ Text.set_add k s.
Proof. apply set_add_elem. left. reflexivity. Qed.

(** [setConfigValue] on a value that is neither [null] nor [undefined]. *)
Lemma setConfigValue_shape `{JsHost} (existing v : value) :
  is_nullish v = false →
  setConfigValue existing v
  = match existing with
    | VArr [] => VArr [VStr (ToString v)]
    | VArr items => VArr (replicate (length items) (VStr (ToString v)))
    | _ => VStr (ToString v)
    end.
Proof.
  intros Hv. unfold setConfigValue. rewrite Hv.
  destruct existing as [| | | | |items|]; try reflexivity.
  destruct items as [|item items]; [reflexivity|].
  change (length (item :: items) =? 0)%nat with false. cbv iota. f_equal.
  generalize (item :: items). intros l.
  induction l as [|a l IH]; [reflexivity|]. cbn. f_equal. exact IH.
Qed.

(** C5, as the code has it. Writing a canonical value back through a mapping
    of mode [shaped] turns an array entry of length [N >= 1] into an array of
    length [N] whose elements are all the string of the new serialized value,
    an empty array entry into a one-element array, and any other entry (a
    scalar, or an absent one) into that string, a scalar. Through a mapping of
    mode [direct] the entry becomes the serialized value itself, with no
    conversion to a string and whatever the entry was: for the three direct
    mappings of the table this value is the string of the canonical value
    followed by a percent sign ([sparse_infill_density]), the string [1] or
    [0] ([enable_support]), and the canonical value as it is
    ([sparse_infill_pattern]), which is a scalar only if the canonical value
    is one. In both modes the key is recorded as touched and no other entry
    changes. *)
Theorem written_entry_shape `{JsHost} (gp cfg : gmap string value)
    (touchedKeys : list string) (mapping : Mapping) :
  let v := own gp (targetKey mapping) in
  let formatted := serialize mapping v in
  strict_equals v VUndefined = false →
  is_nullish formatted = false →
  let after := applyGlobalProcessConfig_step gp (cfg, touchedKeys) mapping in
  after.1 !! configKey mapping
  = Some match mapping_mode mapping with
         | shaped =>
             match own cfg (configKey mapping) with
             | VArr [] => VArr [VStr (ToString formatted)]
             | VArr items =>
                 VArr (replicate (length items) (VStr (ToString formatted)))
             | _ => VStr (ToString formatted)
             end
         | direct => formatted
         end
  ∧ configKey mapping ∈ after.2
  ∧ (∀ other, other ≠ configKey mapping → after.1 !! other = cfg !! other)
  ∧ (mapping ∈ GLOBAL_PROCESS_MAPPINGS →
     mapping_mode mapping = direct →
     (configKey mapping = "sparse_infill_density"
      ∧ formatted = VStr (ToString v +:+ "%"))
     ∨ (configKey mapping = "sparse_infill_pattern" ∧ formatted = v)
     ∨ (configKey mapping = "enable_support"
        ∧ formatted = VStr (if truthy v then "1" else "0"))).
Proof.
  intros v formatted Hv Hformatted after. subst after.
  assert (mapping ∈ GLOBAL_PROCESS_MAPPINGS →
          mapping_mode mapping = direct →
          (configKey mapping = "sparse_infill_density"
           ∧ formatted = VStr (ToString v +:+ "%"))
          ∨ (configKey mapping = "sparse_infill_pattern" ∧ formatted = v)
          ∨ (configKey mapping = "enable_support"
             ∧ formatted = VStr (if truthy v then "1" else "0"))) as Htable.
  { intros Hin Hmode. subst formatted v. unfold GLOBAL_PROCESS_MAPPINGS in Hin.
    repeat (apply elem_of_cons in Hin as [->|Hin]);
      try (apply elem_of_nil in Hin; contradiction);
      cbn [mapping_mode] in Hmode; try discriminate Hmode;
      cbn [configKey targetKey serialize] in *.
    - left. split; [reflexivity|]. unfold formatPercent in *.
      destruct (is_nullish (own gp "infill_density_percent"));
        [discriminate Hformatted|reflexivity].
    - right. left. split; reflexivity.
    - right. right. split; [reflexivity|]. unfold formatSupportFlag in *.
      destruct (is_nullish (own gp "supports_enabled"));
        [discriminate Hformatted|reflexivity]. }
  unfold applyGlobalProcessConfig_step. fold v. rewrite Hv. fold formatted.
  rewrite Hformatted.
  destruct (mapping_mode mapping).
  - unfold setShapedConfigValue. cbn [fst snd].
    rewrite lookup_insert_eq, (setConfigValue_shape _ _ Hformatted).
    split; [reflexivity|]. split; [apply set_add_member|].
    split; [|exact Htable].
    intros other Hother. apply lookup_insert_ne. congruence.
  - unfold setDirectConfigValue. rewrite Hformatted. cbn [fst snd].
    rewrite lookup_insert_eq.
    split; [reflexivity|]. split; [apply set_add_member|].
    split; [|exact Htable].
    intros other Hother. apply lookup_insert_ne. congruence.
Qed.

(** The writer test of the repository: the nozzle temperature [250] written
    over the two-element entry of [nozzle_temperature] gives two elements
    [250]; the wall count [3] written over the scalar [wall_loops] gives the
    scalar [3]. *)
Lemma written_entry_shape_witness :
  let gp : gmap string value :=
    {[ "nozzle_temp_c" := VNum 250; "wall_line_count" := VNum 3 ]} in
  let cfg : gmap string value :=
    {[ "nozzle_temperature" := VArr [VStr "243"; VStr "245"];
       "wall_loops" := VStr "2" ]} in
  (applyGlobalProcessConfig_step (H := ExampleHost.host) gp (cfg, [])
     {| configKey := "nozzle_temperature"; targetKey := "nozzle_temp_c";
        mapping_mode := shaped; parse := parseNumber (H := ExampleHost.host);
        serialize := passthrough |}).1
    !! "nozzle_temperature"
  = Some (VArr [VStr "250"; VStr "250"])
  ∧ (applyGlobalProcessConfig_step (H := ExampleHost.host) gp (cfg, [])
       {| configKey := "wall_loops"; targetKey := "wall_line_count";
          mapping_mode := shaped; parse := parseNumber (H := ExampleHost.host);
          serialize := passthrough |}).1
      !! "wall_loops"
    = Some (VStr "3").
Proof.
  intros gp cfg. split.
  - exact (proj1 (written_entry_shape (H := ExampleHost.host) gp cfg []
                    {| configKey := "nozzle_temperature";
                       targetKey := "nozzle_temp_c";
                       mapping_mode := shaped;
                       parse := parseNumber (H := ExampleHost.host);
                       serialize := passthrough |}
                    eq_refl eq_refl)).
  - exact (proj1 (written_entry_shape (H := ExampleHost.host) gp cfg []
                    {| configKey := "wall_loops";
                       targetKey := "wall_line_count";
                       mapping_mode := shaped;
                       parse := parseNumber (H := ExampleHost.host);
                       serialize := passthrough |}
                    eq_refl eq_refl)).
Defined.

(** A write of mode [direct] converts nothing: the infill pattern, a scalar
    entry [grid], becomes the number [5] or a two-element array when the
    canonical value is one. *)
Lemma direct_entry_takes_the_value_as_it_is :
  let pattern : Mapping :=
    {| configKey := "sparse_infill_pattern"; targetKey := "infill_pattern";
       mapping_mode := direct; parse := parseString; serialize := passthrough |} in
  let cfg : gmap string value := {[ "sparse_infill_pattern" := VStr "grid" ]} in
  GLOBAL_PROCESS_MAPPINGS (H := ExampleHost.host) !! 6%nat = Some pattern
  ∧ (applyGlobalProcessConfig_step (H := ExampleHost.host)
       {[ "infill_pattern" := VNum 5 ]} (cfg, []) pattern).1
      !! "sparse_infill_pattern"
    = Some (VNum 5)
  ∧ (applyGlobalProcessConfig_step (H := ExampleHost.host)
       {[ "infill_pattern" := VArr [VStr "gyroid"; VStr "grid"] ]} (cfg, [])
       pattern).1
      !! "sparse_infill_pattern"
    = Some (VArr [VStr "gyroid"; VStr "grid"]).
Proof. repeat split; vm_compute; reflexivity. Qed.

(** C5, as worded, fails twice. A shaped write to an array entry of length
    [0] gives an array of length [1]; and the infill density, whose mapping
    is of mode [direct], is written as a scalar over a two-element array. *)
Lemma written_entry_changes_shape :
  setConfigValue (H := ExampleHost.host) (VArr []) (VNum 5) = VArr [VStr "5"]
  ∧ (applyGlobalProcessConfig_step (H := ExampleHost.host)
       {[ "infill_density_percent" := VNum 30 ]}
       ({[ "sparse_infill_density" := VArr [VStr "15%"; VStr "15%"] ]}, [])
       {| configKey := "sparse_infill_density";
          targetKey := "infill_density_percent";
          mapping_mode := direct; parse := parsePercent (H := ExampleHost.host);
          serialize := formatPercent (H := ExampleHost.host) |}).1
      !! "sparse_infill_density"
    = Some (VStr "30%")
  ∧ mapping_mode <$> GLOBAL_PROCESS_MAPPINGS (H := ExampleHost.host) !! 5%nat
    = Some direct
  ∧ configKey <$> GLOBAL_PROCESS_MAPPINGS (H := ExampleHost.host) !! 5%nat
    = Some "sparse_infill_density".
Proof. repeat split; vm_compute; reflexivity. Qed.

(** ** The bookkeeping of settings that differ from the system profile *)

(** The loop over the touched keys adds to the group of index [i] exactly the
    touched keys that changed and resolve to [i]. *)
Lemma updateDifferentSettings_fold (base updated : gmap string value)
    (existingIndexByKey : gmap string nat) (keys : list string)
    (merged : list (list string)) (i : nat) (group' : list string) :
  fold_left (updateDifferentSettings_step base updated existingIndexByKey)
    keys merged !! i = Some group' →
  ∃ group,
    merged !! i = Some group
    ∧ (NoDup group → NoDup group')
    ∧ ∀ k, k ∈ group'
           ↔ k ∈ group
             ∨ (k ∈ keys
                ∧ k ≠ "different_settings_to_system"
                ∧ areConfigValuesEqual (own base k) (own updated k) = false
                ∧ resolveDifferentSettingsGroupIndex k existingIndexByKey = i).
Proof.
  revert merged. induction keys as [|key keys IH]; intros merged Hgroup'.
  - exists group'. split; [exact Hgroup'|]. split; [auto|].
    intros k. rewrite elem_of_nil. tauto.
  - cbn [fold_left] in Hgroup'.
    destruct (IH _ Hgroup') as (group1 & Hgroup1 & Hnodup1 & Hin1).
    unfold updateDifferentSettings_step in Hgroup1.
    destruct (String.eqb_spec key "different_settings_to_system") as [Hkey|Hkey].
    { exists group1. split; [exact Hgroup1|]. split; [exact Hnodup1|].
      intros k. rewrite Hin1, elem_of_cons. split; [tauto|].
      intros [?|([->|?] & ? & ? & ?)]; [tauto|congruence|tauto]. }
    destruct (areConfigValuesEqual (own base key) (own updated key)) eqn:Hequal.
    { exists group1. split; [exact Hgroup1|]. split; [exact Hnodup1|].
      intros k. rewrite Hin1, elem_of_cons. split; [tauto|].
      intros [?|([->|?] & ? & ? & ?)]; [tauto|congruence|tauto]. }
    destruct (decide (resolveDifferentSettingsGroupIndex key existingIndexByKey = i))
      as [Hindex|Hindex].
    + rewrite Hindex, list_lookup_alter_eq in Hgroup1.
      destruct (merged !! i) as [group|] eqn:Hgroup; [|discriminate].
      cbn in Hgroup1. injection Hgroup1 as <-.
      exists group. split; [reflexivity|].
      split; [intros ?; apply Hnodup1, set_add_NoDup; assumption|].
      intros k. rewrite Hin1, set_add_elem, elem_of_cons. split; [|tauto].
      intros [[->|?]|?]; tauto.
    + rewrite list_lookup_alter_ne in Hgroup1 by exact Hindex.
      exists group1. split; [exact Hgroup1|]. split; [exact Hnodup1|].
      intros k. rewrite Hin1, elem_of_cons. split; [tauto|].
      intros [?|([->|?] & ? & ? & ?)]; [tauto|congruence|tauto].
Qed.

Lemma updateDifferentSettings_fold_length (base updated : gmap string value)
    (existingIndexByKey : gmap string nat) (keys : list string)
    (merged : list (list string)) :
  length (fold_left (updateDifferentSettings_step base updated existingIndexByKey)
            keys merged)
  = length merged.
Proof.
  revert merged. induction keys as [|key keys IH]; intros merged; [reflexivity|].
  cbn [fold_left]. rewrite IH. unfold updateDifferentSettings_step.
  repeat match goal with
         | |- context [if ?b then _ else _] => destruct b
         end; try reflexivity.
  apply length_alter.
Qed.

(** A group is written as its keys in order, joined by semicolons; for no key
    this is the empty string. *)
Lemma formatDifferentSettingsGroup_sorted (keys : list string) :
  formatDifferentSettingsGroup keys
  = String.concat ";" (merge_sort String.le keys)
  ∧ Sorted String.le (merge_sort String.le keys)
  ∧ (NoDup keys → NoDup (merge_sort String.le keys))
  ∧ ∀ k, k ∈ merge_sort String.le keys ↔ k ∈ keys.
Proof.
  split; [|split; [|split]].
  - unfold formatDifferentSettingsGroup. destruct keys; reflexivity.
  - apply Sorted_merge_sort. apply _.
  - intros Hkeys. rewrite merge_sort_Permutation. exact Hkeys.
  - intros k. rewrite merge_sort_Permutation. reflexivity.
Qed.

(** The group index of a key is [0], [1] or [2]: the write to
    [merged[groupIndex]] always finds its group. *)
Lemma resolveDifferentSettingsGroupIndex_bound (existing : value) (key : string) :
  resolveDifferentSettingsGroupIndex key
    (buildExistingIndexByKey (parseDifferentSettingsToSystem existing)) < 3.
Proof.
  assert (∀ (pairs : list (nat * list string)) (start : gmap string nat),
            Forall (λ pair, pair.1 < 3) pairs →
            map_Forall (λ _ index, index < 3) start →
            map_Forall (λ _ index, index < 3)
              (fold_left
                 (λ indexByKey '(index, keys),
                    fold_left (λ indexByKey key, <[key := index]> indexByKey)
                      keys indexByKey)
                 pairs start)) as Hfold.
  { induction pairs as [|[index keys] pairs IH]; intros start Hpairs Hstart;
      [exact Hstart|].
    cbn [fold_left]. apply Forall_cons in Hpairs as [Hindex Hpairs].
    apply IH; [exact Hpairs|]. cbn in Hindex. clear IH Hpairs.
    revert start Hstart. induction keys as [|k keys IHkeys]; intros start Hstart;
      [exact Hstart|].
    cbn [fold_left]. apply IHkeys. apply map_Forall_insert_2; assumption. }
  unfold resolveDifferentSettingsGroupIndex.
  destruct (buildExistingIndexByKey _ !! key) as [index|] eqn:Hindex.
  - unfold buildExistingIndexByKey in Hindex.
    refine (Hfold _ ∅ _ _ key index Hindex).
    + cbn. repeat constructor.
    + apply map_Forall_empty.
  - repeat case_bool_decide; lia.
Qed.

(** C9. The rewritten bookkeeping field has three groups. Each group is the
    semicolon-joined list, sorted in the order of strings and without
    repetition, of the keys the group held before and of the touched keys
    whose value changed and that resolve to the group; the join of no key is
    the empty string. The filament group moreover holds [compatible_printers]
    whenever it is not empty, touched or not. The writer never touches the
    bookkeeping key itself. *)
Theorem updateDifferentSettingsToSystem_groups (existing : value)
    (base updated : gmap string value) (touchedKeys : list string) :
  "different_settings_to_system" ∉ touchedKeys →
  let groups := parseDifferentSettingsToSystem existing in
  let before i k := ∃ group, groups !! i = Some group ∧ k ∈ group in
  let changed i k :=
    k ∈ touchedKeys
    ∧ areConfigValuesEqual (own base k) (own updated k) = false
    ∧ resolveDifferentSettingsGroupIndex k (buildExistingIndexByKey groups) = i in
  ∃ print filament printer : list string,
    updateDifferentSettingsToSystem existing base updated touchedKeys
    = [String.concat ";" print; String.concat ";" filament;
       String.concat ";" printer]
    ∧ String.concat ";" [] = EmptyString
    ∧ Forall (λ group, Sorted String.le group ∧ NoDup group)
        [print; filament; printer]
    ∧ (∀ k, k ∈ print ↔ before 0 k ∨ changed 0 k)
    ∧ (∀ k, k ∈ filament
            ↔ before 1 k ∨ changed 1 k
              ∨ (k = "compatible_printers" ∧ ∃ k', before 1 k' ∨ changed 1 k'))
    ∧ (∀ k, k ∈ printer ↔ before 2 k ∨ changed 2 k)
    ∧ (filament ≠ [] → "compatible_printers" ∈ filament).
Proof.
  intros Huntouched groups before changed.
  unfold updateDifferentSettingsToSystem. fold groups.
  set (index := buildExistingIndexByKey groups).
  set (merged := fold_left _ touchedKeys _).
  pose proof (updateDifferentSettings_fold_length base updated index touchedKeys
                (map Text.set_of_list groups)) as Hlength.
  fold merged in Hlength.
  destruct merged as [|g0 [|g1 [|g2 [|]]]] eqn:Hmerged; try discriminate Hlength.
  assert (∀ i group', [g0; g1; g2] !! i = Some group' →
            NoDup group'
            ∧ ∀ k, k ∈ group' ↔ before i k ∨ changed i k) as Hgroups.
  { intros i group' Hgroup'. rewrite <- Hmerged in Hgroup'. subst merged.
    apply updateDifferentSettings_fold in Hgroup'
      as (group & Hgroup & Hnodup & Hin).
    rewrite list_lookup_fmap in Hgroup.
    destruct (groups !! i) as [items|] eqn:Hitems; [|discriminate].
    cbn in Hgroup. injection Hgroup as <-.
    destruct (set_of_list_spec items) as [Hset Hitems'].
    split; [exact (Hnodup Hset)|].
    intros k. rewrite Hin, Hitems'. unfold before, changed. rewrite Hitems.
    split.
    - intros [?|(? & ? & ? & ?)]; [left; eauto|right; auto].
    - intros [(? & [= <-] & ?)|(? & ? & ?)]; [auto|].
      right. repeat split; try assumption. intros ->. contradiction. }
  destruct (Hgroups 0 g0 eq_refl) as [Hnodup0 Hin0].
  destruct (Hgroups 1 g1 eq_refl) as [Hnodup1 Hin1].
  destruct (Hgroups 2 g2 eq_refl) as [Hnodup2 Hin2].
  clear Hgroups. cbn [lookup list_lookup].
  set (filament := if (0 <? length g1)%nat
                   then Text.set_add "compatible_printers" g1 else g1).
  assert ((if (0 <? length g1)%nat
           then alter (Text.set_add "compatible_printers") 1 [g0; g1; g2]
           else [g0; g1; g2]) = [g0; filament; g2]) as ->.
  { subst filament. destruct (0 <? length g1)%nat; reflexivity. }
  assert (NoDup filament) as Hnodupf.
  { subst filament. destruct (0 <? length g1)%nat;
      [apply set_add_NoDup|]; assumption. }
  assert (∀ k, k ∈ filament
               ↔ k ∈ g1 ∨ (k = "compatible_printers" ∧ ∃ k', k' ∈ g1)) as Hinf.
  { intros k. subst filament. destruct g1 as [|k1 g1]; cbn [length Nat.ltb Nat.leb].
    - split; [auto|]. intros [?|[_ [k' Hk']]]; [assumption|].
      apply elem_of_nil in Hk'. contradiction.
    - rewrite set_add_elem. split.
      + intros [->|?]; [|auto]. right. split; [reflexivity|].
        exists k1. apply elem_of_cons. auto.
      + intros [?|[-> _]]; auto. }
  destruct (formatDifferentSettingsGroup_sorted g0) as (Hformat0 & Hsorted0 & Hnd0 & Hm0).
  destruct (formatDifferentSettingsGroup_sorted filament)
    as (Hformat1 & Hsorted1 & Hnd1 & Hm1).
  destruct (formatDifferentSettingsGroup_sorted g2) as (Hformat2 & Hsorted2 & Hnd2 & Hm2).
  exists (merge_sort String.le g0), (merge_sort String.le filament),
    (merge_sort String.le g2).
  split; [cbn [map]; rewrite Hformat0, Hformat1, Hformat2; reflexivity|].
  split; [reflexivity|].
  split; [repeat constructor; auto|].
  split; [intros k; rewrite Hm0; apply Hin0|].
  split.
  { intros k. rewrite Hm1, Hinf, Hin1. split.
    - intros [[?|?]|[-> [k' Hk']]]; [auto..|].
      right. right. split; [reflexivity|]. exists k'. apply Hin1. exact Hk'.
    - intros [?|[?|[-> [k' Hk']]]]; [auto..|].
      right. split; [reflexivity|]. exists k'. apply Hin1. exact Hk'. }
  split; [intros k; rewrite Hm2; apply Hin2|].
  intros Hnonempty. apply Hm1. subst filament.
  destruct g1 as [|k1 g1]; [contradiction Hnonempty; reflexivity|].
  cbn [length Nat.ltb Nat.leb]. apply set_add_elem. auto.
Qed.

(** A write that changes [wall_loops] and [fan_max_speed] and rewrites
    [layer_height] with the value it had: the print group gains [wall_loops],
    and the filament group, empty before, gains [fan_max_speed] and with it
    [compatible_printers], which was not touched. *)
Lemma updateDifferentSettingsToSystem_groups_witness :
  let existing := VArr [VStr "layer_height"; VStr ""; VStr ""] in
  let base : gmap string value :=
    {[ "layer_height" := VStr "0.2"; "wall_loops" := VStr "2";
       "fan_max_speed" := VArr [VStr "50"] ]} in
  let updated : gmap string value :=
    {[ "layer_height" := VStr "0.2"; "wall_loops" := VStr "3";
       "fan_max_speed" := VArr [VStr "35"] ]} in
  let touchedKeys := ["layer_height"; "wall_loops"; "fan_max_speed"] in
  updateDifferentSettingsToSystem existing base updated touchedKeys
  = ["layer_height;wall_loops"; "compatible_printers;fan_max_speed"; ""]
  ∧ ∃ filament,
      String.concat ";" filament = "compatible_printers;fan_max_speed"
      ∧ "compatible_printers" ∈ filament
      ∧ "compatible_printers" ∉ touchedKeys.
Proof.
  intros existing base updated touchedKeys.
  destruct (updateDifferentSettingsToSystem_groups existing base updated touchedKeys
              ltac:(decide_by_evaluation))
    as (print & filament & printer & Hout & _ & _ & _ & Hfilament & _ & Hsentinel).
  assert (updateDifferentSettingsToSystem existing base updated touchedKeys
          = ["layer_height;wall_loops"; "compatible_printers;fan_max_speed"; ""])
    as Hvalue by (vm_compute; reflexivity).
  split; [exact Hvalue|].
  exists filament. rewrite Hvalue in Hout. injection Hout as _ Hjoin _.
  split; [symmetry; exact Hjoin|].
  split; [|decide_by_evaluation].
  apply Hsentinel. intros ->.
  assert ("fan_max_speed" ∈ ([] : list string)) as Hin; [|inversion Hin].
  apply Hfilament. right. left.
  split; [decide_by_evaluation|]. split; vm_compute; reflexivity.
Defined.

(** ** Reading literal objects *)

Lemma own_insert_eq (o : gmap string value) (k : string) (v : value) :
  own (<[k := v]> o) k = v.
Proof. unfold own. rewrite lookup_insert_eq. reflexivity. Qed.

Lemma own_insert_ne (o : gmap string value) (k k' : string) (v : value) :
  k ≠ k' → own (<[k := v]> o) k' = own o k'.
Proof. intros Hne. unfold own. rewrite lookup_insert_ne by exact Hne. reflexivity. Qed.

Lemma own_empty (k : string) : own ∅ k = VUndefined.
Proof. reflexivity. Qed.

Lemma own_singleton_eq (k : string) (v : value) : own {[ k := v ]} k = v.
Proof. unfold own. rewrite lookup_singleton_eq. reflexivity. Qed.

Lemma own_singleton_ne (k k' : string) (v : value) :
  k ≠ k' → own {[ k := v ]} k' = VUndefined.
Proof. intros Hne. unfold own. rewrite lookup_singleton_ne by exact Hne. reflexivity. Qed.

(** Reading the properties of an object literal. *)
Ltac own_literal :=
  repeat first [ rewrite own_insert_eq
               | rewrite own_insert_ne by discriminate
               | rewrite own_singleton_eq
               | rewrite own_singleton_ne by discriminate
               | rewrite own_empty ].

Lemma nullish_or_absorb (a b : value) : (a ?? b) ?? b = a ?? b.
Proof. unfold nullish_or. destruct a; cbn; try reflexivity; destruct (is_nullish b); reflexivity. Qed.

Lemma strict_equals_undefined (v : value) :
  strict_equals v VUndefined = true ↔ v = VUndefined.
Proof. destruct v; cbn; split; congruence. Qed.

(** ** The validator on its own results and on invalid changes *)

(** A validated change has the shape the validator builds: validating it
    again changes nothing. *)
Lemma validateChange_idempotent (change : value) (index index' : nat) (validated : value) :
  validateChange change index = Ok validated →
  validateChange validated index' = Ok validated.
Proof.
  intros Hvalid. apply validateChange_accepts in Hvalid
    as (props & -> & Hparameter & HnewValue & Hscope & ->).
  unfold validateChange. cbn [get_member mbind result_bind].
  own_literal.
  rewrite Hparameter, HnewValue, !nullish_or_absorb, Hscope. reflexivity.
Qed.

Lemma validateChanges_idempotent (items : list value) (index index' : nat)
    (validated : list value) :
  validateChanges items index = Ok validated →
  validateChanges validated index' = Ok validated.
Proof.
  revert index index' validated.
  induction items as [|change items IH]; intros index index' validated.
  - intros [= <-]. reflexivity.
  - cbn [validateChanges].
    destruct (validateChange change index) as [accepted|] eqn:Hchange; [|discriminate].
    cbn [mbind result_bind].
    destruct (validateChanges items (S index)) as [others|] eqn:Hitems; [|discriminate].
    intros [= <-]. cbn [validateChanges].
    rewrite (validateChange_idempotent _ _ _ _ Hchange). cbn [mbind result_bind].
    rewrite (IH _ (S index') _ Hitems). reflexivity.
Qed.

(** What an accepted response was made from. *)
Lemma parseLlmResponse_inv `{JsHost} (content : value) (response : LlmResponse) :
  parseLlmResponse content = Ok response →
  ∃ props items,
    (content = VObj props
     ∨ ∃ text, content = VStr text ∧ JSON_parse text = Some (VObj props))
    ∧ own props "changes" = VArr items
    ∧ validateChanges items 0 = Ok (changes response)
    ∧ version response = own props "version" ?? VNum 1
    ∧ globalRationale response = own props "globalRationale"
    ∧ warnings response = own props "warnings" ?? VArr [].
Proof.
  unfold parseLlmResponse.
  assert (∀ parsed,
            (if negb (truthy parsed) || negb (typeof_object parsed)
             then Throw (InvalidLlmResponseError NotAnObject)
             else
               changes ← get_member parsed "changes";
               match changes with
               | VArr items =>
                   validatedChanges ← validateChanges items 0;
                   version ← get_member parsed "version";
                   globalRationale ← get_member parsed "globalRationale";
                   warnings ← get_member parsed "warnings";
                   Ok {| version := version ?? VNum 1;
                         changes := validatedChanges;
                         globalRationale := globalRationale;
                         warnings := warnings ?? VArr [] |}
               | _ => Throw (InvalidLlmResponseError MissingChangesArray)
               end) = Ok response →
            ∃ props items,
              parsed = VObj props
              ∧ own props "changes" = VArr items
              ∧ validateChanges items 0 = Ok (changes response)
              ∧ version response = own props "version" ?? VNum 1
              ∧ globalRationale response = own props "globalRationale"
              ∧ warnings response = own props "warnings" ?? VArr []) as Hparsed.
  { intros parsed. destruct parsed as [| |b|n|text|items|props].
    1, 2, 6: discriminate.
    { destruct b; discriminate. }
    { cbn. rewrite orb_true_r. discriminate. }
    { cbn. rewrite orb_true_r. discriminate. }
    cbn [mbind result_bind truthy typeof_object negb orb get_member].
    destruct (own props "changes") as [| | | | |items|] eqn:Hchanges;
      try discriminate.
    destruct (validateChanges items 0) as [validated|] eqn:Hitems; [|discriminate].
    cbn. intros [= <-]. exists props, items. cbn. auto 10. }
  destruct content as [| |b|n|text|items|props];
    try (intros Hok; cbn [mbind result_bind] in Hok;
         apply Hparsed in Hok as (props' & items' & Hcontent & Hrest);
         exists props', items'; split; [left; exact Hcontent|exact Hrest]).
  destruct (JSON_parse text) as [parsed|] eqn:Hjson; [|discriminate].
  intros Hok. cbn [mbind result_bind] in Hok.
  apply Hparsed in Hok as (props' & items' & -> & Hrest).
  exists props', items'. split; [right; eauto|exact Hrest].
Qed.

(** X1. [parseLlmResponse] is idempotent: the object it returns,
    [{ version, changes, globalRationale, warnings }], is accepted when it is
    given back to it as a parsed object, and the result has the same
    contents: the defaults it filled in ([version], [warnings], and the scope, target,
    change type and reason of every change) are fixed points. *)
Theorem parseLlmResponse_idempotent `{JsHost} (content : value)
    (response : LlmResponse) :
  parseLlmResponse content = Ok response →
  parseLlmResponse
    (VObj {[ "version" := version response;
             "changes" := VArr (changes response);
             "globalRationale" := globalRationale response;
             "warnings" := warnings response ]})
  = Ok response.
Proof.
  intros Hok.
  apply parseLlmResponse_inv in Hok
    as (props & items & _ & _ & Hitems & Hversion & Hrationale & Hwarnings).
  unfold parseLlmResponse.
  cbn [mbind result_bind truthy typeof_object negb orb get_member].
  own_literal.
  rewrite (validateChanges_idempotent _ _ 0 _ Hitems).
  cbn [mbind result_bind].
  rewrite Hversion, Hwarnings, !nullish_or_absorb, <- Hversion, <- Hwarnings.
  destruct response; reflexivity.
Qed.

(** The response of a relative change of the layer height, given back. *)
Lemma parseLlmResponse_idempotent_witness :
  let response :=
    {| version := VNum 1;
       changes :=
         [Examples.object [("scope", VStr "global"); ("target", VNull);
                           ("parameter", VStr "layer_height_mm");
                           ("newValue", VNum 0.18);
                           ("changeType", VStr "relative");
                           ("reason", VStr "")]];
       globalRationale := VUndefined;
       warnings := VArr [] |} in
  parseLlmResponse (H := ExampleHost.host)
    (VObj {[ "version" := version response;
             "changes" := VArr (changes response);
             "globalRationale" := globalRationale response;
             "warnings" := warnings response ]})
  = Ok response.
Proof.
  intros response.
  apply (parseLlmResponse_idempotent (H := ExampleHost.host)
           (Examples.response_with_changeType (VStr "relative")) response).
  vm_compute. reflexivity.
Defined.


(** [changes.map(validateChange)] throws what the first change that is not
    valid throws, at its position in the array. *)
Lemma validateChanges_Throw (items : list value) (index : nat) (e : exn) :
  validateChanges items index = Throw e
  ↔ ∃ before change after accepted,
      items = before ++ change :: after
      ∧ validateChanges before index = Ok accepted
      ∧ validateChange change (index + length before) = Throw e.
Proof.
  split.
  - revert index. induction items as [|item items IH]; intros index; [discriminate|].
    cbn [validateChanges].
    destruct (validateChange item index) as [accepted|e'] eqn:Hitem;
      cbn [mbind result_bind].
    + destruct (validateChanges items (S index)) as [others|e''] eqn:Hitems;
        cbn [mbind result_bind]; [discriminate|].
      intros [= <-]. apply IH in Hitems
        as (before & change & after & accepted' & -> & Hbefore & Hchange).
      exists (item :: before), change, after, (accepted :: accepted').
      split; [reflexivity|]. split.
      * cbn [validateChanges]. rewrite Hitem. cbn [mbind result_bind].
        rewrite Hbefore. reflexivity.
      * cbn [length]. rewrite <- Nat.add_succ_comm. exact Hchange.
    + intros [= <-]. exists [], item, items, []. split; [reflexivity|].
      split; [reflexivity|]. rewrite Nat.add_0_r. exact Hitem.
  - intros (before & change & after & accepted & -> & Hbefore & Hchange).
    revert index accepted Hbefore Hchange.
    induction before as [|item before IH]; intros index accepted Hbefore Hchange.
    + cbn [app validateChanges]. rewrite Nat.add_0_r in Hchange. rewrite Hchange.
      reflexivity.
    + cbn [app validateChanges] in Hbefore |- *.
      destruct (validateChange item index) as [first|]; [|discriminate].
      cbn [mbind result_bind] in Hbefore |- *.
      destruct (validateChanges before (S index)) as [others|] eqn:Hprefix;
        [|discriminate].
      cbn [length] in Hchange. rewrite <- Nat.add_succ_comm in Hchange.
      rewrite (IH (S index) others Hprefix Hchange). reflexivity.
Qed.

(** X2. For a parsed object whose [changes] is an array, [parseLlmResponse]
    throws exactly when some change is not valid, and what it throws is what
    [validateChange] throws for the first such change, called with the
    position of that change in the array: later changes are not looked at,
    and the index in the message of a missing parameter is that position. *)
Theorem parseLlmResponse_first_invalid_change `{JsHost} (props : gmap string value)
    (items : list value) (e : exn) :
  own props "changes" = VArr items →
  parseLlmResponse (VObj props) = Throw e
  ↔ ∃ before change after accepted,
      items = before ++ change :: after
      ∧ validateChanges before 0 = Ok accepted
      ∧ validateChange change (length before) = Throw e.
Proof.
  intros Hchanges. unfold parseLlmResponse.
  cbn [mbind result_bind truthy typeof_object negb orb get_member].
  rewrite Hchanges. rewrite <- (validateChanges_Throw items 0 e).
  destruct (validateChanges items 0) as [validated|e']; cbn [mbind result_bind].
  - split; discriminate.
  - split; intros [= <-]; reflexivity.
Qed.

(** Three changes, the second without [newValue], the third without
    parameter: the exception names the second. *)
Lemma parseLlmResponse_first_invalid_change_witness :
  parseLlmResponse (H := ExampleHost.host)
    (Examples.object
       [("changes",
         VArr [Examples.absolute_change "top_layers" (VNum 5);
               Examples.object [("parameter", VStr "wall_line_count")];
               Examples.object [("newValue", VNum 1)]])])
  = Throw (InvalidLlmResponseError (MissingNewValue (VStr "wall_line_count"))).
Proof.
  apply (parseLlmResponse_first_invalid_change (H := ExampleHost.host) _
           [Examples.absolute_change "top_layers" (VNum 5);
            Examples.object [("parameter", VStr "wall_line_count")];
            Examples.object [("newValue", VNum 1)]]).
  - reflexivity.
  - exists [Examples.absolute_change "top_layers" (VNum 5)],
      (Examples.object [("parameter", VStr "wall_line_count")]),
      [Examples.object [("newValue", VNum 1)]].
    eexists. split; [reflexivity|]. split; vm_compute; reflexivity.
Defined.


(** ** The override store *)


(** ** Which parameters are locked *)

(** The two sets of the lookup hold the strings of the truthy entries and
    their normalized keys, and nothing else. *)
Lemma buildUserModifiedLookup_elem `{JsHost} (entries : list value)
    (start : UserModifiedLookup) :
  let step := λ lookup entry,
    if negb (truthy entry) then lookup
    else
      let key := ToString entry in
      {| raw := raw lookup ∪ {[ key ]};
         normalized := normalized lookup ∪ {[ normalizeSettingKey (VStr key) ]} |} in
  let final := fold_left step entries start in
  (∀ k, k ∈ raw final
        ↔ k ∈ raw start
          ∨ ∃ entry, entry ∈ entries ∧ truthy entry = true ∧ k = ToString entry)
  ∧ (∀ k, k ∈ normalized final
          ↔ k ∈ normalized start
            ∨ ∃ entry, entry ∈ entries ∧ truthy entry = true
                       ∧ k = normalizeSettingKey entry).
Proof.
  revert start. induction entries as [|e entries IH]; intros start step final.
  - split; intros k; cbn; (split; [auto|]);
      intros [?|(entry & Hin & _)]; [assumption|inversion Hin|assumption|inversion Hin].
  - subst final. cbn [fold_left].
    destruct (IH (step start e)) as [Hraw Hnorm]. fold step in Hraw, Hnorm.
    assert (∀ entry, normalizeSettingKey (VStr (ToString entry))
                     = normalizeSettingKey entry) as Hkey by reflexivity.
    split; intros k.
    + rewrite Hraw. subst step. cbn beta.
      destruct (truthy e) eqn:Htruthy; cbn [negb raw].
      * rewrite elem_of_union, elem_of_singleton. split.
        -- intros [[?| ->]|(entry & Hin & Hrest)]; [auto| |].
           ++ right. exists e. split; [left|]. auto.
           ++ right. exists entry. split; [right; exact Hin|exact Hrest].
        -- intros [?|(entry & Hin & Ht & ->)]; [auto|].
           apply elem_of_cons in Hin as [-> |Hin]; [auto|].
           right. exists entry. auto.
      * split.
        -- intros [?|(entry & Hin & Hrest)]; [auto|].
           right. exists entry. split; [right; exact Hin|exact Hrest].
        -- intros [?|(entry & Hin & Ht & ->)]; [auto|].
           apply elem_of_cons in Hin as [-> |Hin]; [congruence|].
           right. exists entry. auto.
    + rewrite Hnorm. subst step. cbn beta.
      destruct (truthy e) eqn:Htruthy; cbn [negb normalized].
      * rewrite elem_of_union, elem_of_singleton, Hkey. split.
        -- intros [[?| ->]|(entry & Hin & Hrest)]; [auto| |].
           ++ right. exists e. split; [left|]. auto.
           ++ right. exists entry. split; [right; exact Hin|exact Hrest].
        -- intros [?|(entry & Hin & Ht & ->)]; [auto|].
           apply elem_of_cons in Hin as [-> |Hin]; [auto|].
           right. exists entry. auto.
      * split.
        -- intros [?|(entry & Hin & Hrest)]; [auto|].
           right. exists entry. split; [right; exact Hin|exact Hrest].
        -- intros [?|(entry & Hin & Ht & ->)]; [auto|].
           apply elem_of_cons in Hin as [-> |Hin]; [congruence|].
           right. exists entry. auto.
Qed.

(** X5. A parameter is locked exactly when its normalized key is the
    normalized key of some truthy entry of the user-modified settings: the
    test for an exact match never decides, since an exact match is also a
    normalized one. *)
Theorem isUserSettingLocked_iff `{JsHost} (entries : list value) (parameter : value) :
  isUserSettingLocked parameter (buildUserModifiedLookup entries) = true
  ↔ ∃ entry, entry ∈ entries ∧ truthy entry = true
             ∧ normalizeSettingKey parameter = normalizeSettingKey entry.
Proof.
  destruct (buildUserModifiedLookup_elem entries {| raw := ∅; normalized := ∅ |})
    as [Hraw Hnorm].
  fold (buildUserModifiedLookup entries) in Hraw, Hnorm. cbn [raw normalized] in *.
  unfold isUserSettingLocked. case_bool_decide as Hsize.
  - apply size_empty_inv in Hsize. split; [discriminate|].
    intros (entry & Hin & Htruthy & _).
    assert (ToString entry ∈ raw (buildUserModifiedLookup entries)) as Helem
      by (apply Hraw; right; eauto).
    rewrite Hsize in Helem. set_solver.
  - destruct (match parameter with VStr p => _ | _ => false end) eqn:Hexact.
    + split; [intros _|reflexivity].
      destruct parameter as [| | | |p| |]; try discriminate.
      apply bool_decide_eq_true in Hexact. apply Hraw in Hexact
        as [Hempty|(entry & Hin & Htruthy & ->)]; [set_solver|].
      exists entry. auto.
    + rewrite bool_decide_eq_true, Hnorm. split.
      * intros [Hempty|(entry & Hin & Htruthy & Hkey)]; [set_solver|eauto].
      * intros (entry & Hin & Htruthy & Hkey). right. eauto.
Qed.

(** X6. When no change of the response has a locked parameter,
    [applyLlmChanges] gives the same result with [respectUserSettings]
    enabled and disabled. *)
Theorem respectUserSettings_matters_only_for_locked `{JsHost} (t : translator)
    (normalized : Normalized) (response : LlmResponse) :
  (∀ change parameter,
     change ∈ changes response →
     get_member change "parameter" = Ok parameter →
     isUserSettingLocked parameter
       (buildUserModifiedLookup (default [] (userModifiedSettings normalized)))
     = false) →
  applyLlmChanges t normalized response true
  = applyLlmChanges t normalized response false.
Proof.
  intros Hunlocked. unfold applyLlmChanges.
  destruct (spread_iterable (warnings response ?? VArr [])) as [notes|];
    cbn [mbind result_bind]; [|reflexivity].
  revert Hunlocked.
  generalize (buildUserModifiedLookup (default [] (userModifiedSettings normalized))).
  intros userModified. generalize (normalized, notes, @nil Diff).
  induction (changes response) as [|change rest IH]; intros state Hunlocked;
    [reflexivity|].
  cbn [applyLlmChanges_loop].
  assert (applyLlmChanges_step t true userModified state change
          = applyLlmChanges_step t false userModified state change) as ->.
  { destruct state as [[updated warnings] diffs]. unfold applyLlmChanges_step.
    destruct (get_member change "parameter") as [parameter|] eqn:Hparameter;
      cbn [mbind result_bind].
    - rewrite (Hunlocked change parameter) by (left || exact Hparameter).
      reflexivity.
    - unfold applySingleChange.
      destruct change as [| | | | | |props]; try discriminate;
        injection Hparameter as <-; reflexivity. }
  destruct (applyLlmChanges_step t false userModified state change);
    cbn [mbind result_bind]; [|reflexivity].
  apply IH. intros change' parameter Hin. apply Hunlocked. right. exact Hin.
Qed.

(** The user modified the layer height only: the change of the fan speed is
    applied with and without enforcement. *)
Lemma respectUserSettings_matters_only_for_locked_witness :
  let model := Examples.fan_model [VStr "layer_height"] 25 in
  let response :=
    Examples.response_of [Examples.absolute_change "fan_speed_percent" (VNum 60)] in
  isUserSettingLocked (H := ExampleHost.host) (VStr "fan_speed_percent")
    (buildUserModifiedLookup (H := ExampleHost.host) [VStr "layer_height"]) = false
  ∧ applyLlmChanges (H := ExampleHost.host) ExampleHost.t model response true
    = applyLlmChanges (H := ExampleHost.host) ExampleHost.t model response false.
Proof.
  intros model response. split; [vm_compute; reflexivity|].
  apply (respectUserSettings_matters_only_for_locked (H := ExampleHost.host)).
  intros change parameter Hchange Hparameter.
  apply list_elem_of_singleton in Hchange as ->.
  injection Hparameter as <-. vm_compute. reflexivity.
Defined.

(** ** What a run of the engine keeps, and runs in two batches *)

(** X7. Whatever the changes are, a run of [applyLlmChanges] that returns
    leaves the summary fields of the project and the user-modified settings
    as they were, keeps every plate with its index and name and every object
    with its name, plate index and geometry (only the settings of objects
    change), returns the warnings of the response followed by at most one
    warning per change, and records at most one diff per change. *)
Theorem applyLlmChanges_preserves `{JsHost} (t : translator)
    (normalized : Normalized) (response : LlmResponse) (respectUserSettings : bool)
    (updated : Normalized) (warnings' : list value) (diffs : list Diff) :
  applyLlmChanges t normalized response respectUserSettings
  = Ok (updated, warnings', diffs) →
  projectInfo updated = projectInfo normalized
  ∧ userModifiedSettings updated = userModifiedSettings normalized
  ∧ map (λ plate, (plate_index plate, plate_name plate,
                   map (λ obj, (obj_name obj, obj_plateIndex obj, obj_geometry obj))
                     (plate_objects plate)))
      (plates updated)
    = map (λ plate, (plate_index plate, plate_name plate,
                     map (λ obj, (obj_name obj, obj_plateIndex obj, obj_geometry obj))
                       (plate_objects plate)))
        (plates normalized)
  ∧ (∃ given added,
       spread_iterable (warnings response ?? VArr []) = Ok given
       ∧ warnings' = given ++ added
       ∧ length added ≤ length (changes response))
  ∧ length diffs ≤ length (changes response).
Proof.
  unfold applyLlmChanges.
  destruct (spread_iterable (warnings response ?? VArr [])) as [given|];
    [|discriminate].
  cbn [mbind result_bind]. intros Hloop.
  apply applyLlmChanges_loop_frame in Hloop
    as (Hinfo & Huser & Hplates & (added & -> & Hadded)
        & (recorded & -> & Hrecorded)).
  split_conjunctions; try assumption.
  exists given, added. auto.
Qed.

(** An object change that is applied and a global change of an unknown
    parameter: one diff, one warning, the plate and its object in place. *)
Lemma applyLlmChanges_preserves_witness :
  let model := Examples.cube_model "CalibrationCube" in
  let response :=
    Examples.response_of
      [Examples.object_change Examples.cube_target "wall_line_count" (VNum 3)
         "absolute";
       Examples.absolute_change "wall_count" (VNum 3)] in
  let settings : gmap string value := {[ "wall_line_count" := VNum 3 ]} in
  let updated :=
    set_plates
      [ {| plate_index := VNum 0; plate_name := VStr "Plate 1";
           plate_objects :=
             [ {| obj_name := VStr "CalibrationCube"; obj_plateIndex := VNum 0;
                  obj_geometry := VNull; obj_settings := Some settings |} ] |} ]
      (set_perObjectOverrides
         {[ "0::CalibrationCube" :=
              <["wall_line_count" := VNum 3]>
                {[ "plateIndex" := VNum 0;
                   "objectName" := VStr "CalibrationCube" ]} ]}
         model) in
  applyLlmChanges (H := ExampleHost.host) ExampleHost.t model response true
  = Ok (updated, [VStr "unknownParameterWarning wall_count"],
        [ {| scope := "object"; target := Examples.cube_target;
             parameter := VStr "wall_line_count";
             from := VNum 2; to := VNum 3; reason := VUndefined ?? VStr "" |} ])
  ∧ projectInfo updated = projectInfo model
  ∧ userModifiedSettings updated = userModifiedSettings model
  ∧ map plate_index (plates updated) = map plate_index (plates model).
Proof.
  intros model response settings updated.
  assert (applyLlmChanges (H := ExampleHost.host) ExampleHost.t model response true
          = Ok (updated, [VStr "unknownParameterWarning wall_count"],
                [ {| scope := "object"; target := Examples.cube_target;
                     parameter := VStr "wall_line_count";
                     from := VNum 2; to := VNum 3;
                     reason := VUndefined ?? VStr "" |} ])) as Hrun
    by (vm_compute; reflexivity).
  split; [exact Hrun|].
  destruct (applyLlmChanges_preserves (H := ExampleHost.host) _ _ _ _ _ _ _ Hrun)
    as (Hinfo & Huser & Hplates & _).
  split; [exact Hinfo|]. split; [exact Huser|].
  apply (f_equal (map (λ x : value * value * list (value * value * value), x.1.1)))
    in Hplates.
  rewrite !map_map in Hplates. exact Hplates.
Defined.

(** X8. Applying the changes of a response in two batches, the second on the
    model and with the warnings the first returned, gives the same model and
    warnings as applying them at once, and the diffs of the two batches one
    after the other. *)
Theorem applyLlmChanges_in_batches `{JsHost} (t : translator)
    (normalized : Normalized) (first second : list value)
    (version globalRationale given : value) (respectUserSettings : bool) :
  applyLlmChanges t normalized
    {| version := version; changes := first ++ second;
       globalRationale := globalRationale; warnings := given |}
    respectUserSettings
  = ('(updated1, warnings1, diffs1) ←
       applyLlmChanges t normalized
         {| version := version; changes := first;
            globalRationale := globalRationale; warnings := given |}
         respectUserSettings;
     '(updated2, warnings2, diffs2) ←
       applyLlmChanges t updated1
         {| version := version; changes := second;
            globalRationale := globalRationale; warnings := VArr warnings1 |}
         respectUserSettings;
     Ok (updated2, warnings2, diffs1 ++ diffs2)).
Proof.
  unfold applyLlmChanges. cbn [warnings changes].
  destruct (spread_iterable (given ?? VArr [])) as [notes|];
    cbn [mbind result_bind]; [|reflexivity].
  rewrite applyLlmChanges_loop_app.
  destruct (applyLlmChanges_loop _ _ _ (normalized, notes, []) first)
    as [[[updated1 warnings1] diffs1]|] eqn:Hfirst; cbn [mbind result_bind];
    [|reflexivity].
  apply applyLlmChanges_loop_frame in Hfirst as (_ & -> & _).
  rewrite <- (app_nil_r diffs1) at 1. rewrite applyLlmChanges_loop_diffs.
  unfold nullish_or. cbn [is_nullish spread_iterable mbind result_bind].
  destruct (applyLlmChanges_loop _ _ _ (updated1, warnings1, []) second)
    as [[[updated2 warnings2] diffs2]|]; reflexivity.
Qed.

(** ** Reading back what a change wrote *)











(** ** Speed parameters *)

(** [split(sep)[0]] of a string that continues after a first separator. *)
Lemma split_first_segment (sep : ascii) (key rest : string) :
  sep ∉ list_ascii_of_string key →
  hd EmptyString (Text.split sep key) = key
  ∧ hd EmptyString (Text.split sep (key +:+ String sep rest)) = key.
Proof.
  induction key as [|c key IH]; intros Hkey.
  - split; [reflexivity|].
    change (EmptyString +:+ String sep rest) with (String sep rest).
    cbn [Text.split]. rewrite Ascii.eqb_refl. reflexivity.
  - cbn [list_ascii_of_string] in Hkey. apply not_elem_of_cons in Hkey as [Hc Hkey].
    destruct (IH Hkey) as [IH1 IH2].
    change (String c key +:+ String sep rest) with (String c (key +:+ String sep rest)).
    cbn [Text.split].
    destruct (Ascii.eqb_spec c sep) as [->|_]; [contradiction Hc; reflexivity|].
    split.
    + destruct (Text.split sep key); cbn in IH1 |- *; congruence.
    + destruct (Text.split sep (key +:+ String sep rest)); cbn in IH2 |- *; congruence.
Qed.

(** X11. Only the first segment after the prefix [speeds.] names the speed:
    for a key without a dot, the parameter [speeds.key.rest] resolves to the
    same value and the same setter as [speeds.key], whatever [rest] is. *)
Theorem resolveParameter_first_speed_segment `{JsHost}
    (container : gmap string value) (key rest : string) :
  "."%char ∉ list_ascii_of_string key →
  parseSpeedKey (VStr ("speeds." +:+ key)) = Ok (Some key)
  ∧ resolveParameter container (VStr ("speeds." +:+ key +:+ "." +:+ rest))
    = resolveParameter container (VStr ("speeds." +:+ key)).
Proof.
  intros Hkey. destruct (split_first_segment "."%char key rest Hkey) as [Hone Hmore].
  assert (parseSpeedKey (VStr ("speeds." +:+ key)) = Ok (Some key)) as Hshort.
  { unfold parseSpeedKey.
    change ("speeds." +:+ key) with (String "s" (String "p" (String "e" (String "e"
      (String "d" (String "s" (String "." key))))))).
    cbn -[Text.split].
    replace (String.prefix "" key) with true by (destruct key; reflexivity).
    rewrite Hone. reflexivity. }
  assert (parseSpeedKey (VStr ("speeds." +:+ key +:+ "." +:+ rest)) = Ok (Some key))
    as Hlong.
  { unfold parseSpeedKey.
    change ("speeds." +:+ key +:+ "." +:+ rest)
      with (String "s" (String "p" (String "e" (String "e"
             (String "d" (String "s" (String "." (key +:+ String "." rest)))))))).
    cbn -[Text.split].
    replace (String.prefix "" (key +:+ String "." rest)) with true
      by (destruct key; reflexivity).
    rewrite Hmore. reflexivity. }
  split; [exact Hshort|]. unfold resolveParameter. rewrite Hshort, Hlong. reflexivity.
Qed.

(** [speeds.wall_outer.max] is [speeds.wall_outer]. *)
Lemma resolveParameter_first_speed_segment_witness :
  parseSpeedKey (VStr "speeds.wall_outer") = Ok (Some "wall_outer")
  ∧ resolveParameter (H := ExampleHost.host)
      (globalProcess (Examples.cube_model "CalibrationCube"))
      (VStr "speeds.wall_outer.max")
    = resolveParameter (H := ExampleHost.host)
        (globalProcess (Examples.cube_model "CalibrationCube"))
        (VStr "speeds.wall_outer").
Proof.
  apply (resolveParameter_first_speed_segment (H := ExampleHost.host)
           (globalProcess (Examples.cube_model "CalibrationCube"))
           "wall_outer" "max").
  decide_by_evaluation.
Defined.

(** ** Vendor keys that are carried through *)

(** [mergeRemainingConfig] at one key. *)
Lemma mergeRemainingConfig_own `{JsHost} (config settings : gmap string value)
    (key : string) :
  own (mergeRemainingConfig config settings) key
  = if bool_decide (key ∈ CONSUMED_CONFIG_KEYS) then own settings key
    else if negb (bool_decide (key ∈ ALLOWED_EXTRA_CONFIG_KEYS)) then own settings key
    else if negb (strict_equals (own settings key) VUndefined) then own settings key
    else own config key.
Proof.
  unfold mergeRemainingConfig.
  apply (map_fold_weak_ind
           (λ result visited,
              own result key
              = if bool_decide (key ∈ CONSUMED_CONFIG_KEYS) then own settings key
                else if negb (bool_decide (key ∈ ALLOWED_EXTRA_CONFIG_KEYS))
                then own settings key
                else if negb (strict_equals (own settings key) VUndefined)
                then own settings key
                else own visited key)).
  - repeat case_bool_decide; cbn [negb]; try reflexivity.
    destruct (strict_equals (own settings key) VUndefined) eqn:Hdefined;
      cbn [negb]; [|reflexivity].
    apply strict_equals_undefined in Hdefined. rewrite Hdefined. reflexivity.
  - intros entry v visited result Hfresh IH.
    unfold mergeRemainingConfig_step.
    destruct (decide (entry = key)) as [->|Hother].
    + destruct (bool_decide (key ∈ CONSUMED_CONFIG_KEYS)); [exact IH|].
      destruct (bool_decide (key ∈ ALLOWED_EXTRA_CONFIG_KEYS)); cbn [negb] in *;
        [|exact IH].
      destruct (strict_equals (own settings key) VUndefined) eqn:Hsettings;
        cbn [negb] in *.
      * assert (own visited key = VUndefined) as Hvisited
          by (unfold own; rewrite Hfresh; reflexivity).
        rewrite Hvisited in IH. rewrite IH. cbn [strict_equals negb].
        rewrite !own_insert_eq. reflexivity.
      * rewrite IH, Hsettings. cbn [negb]. exact IH.
    + assert (own (<[entry := v]> visited) key = own visited key) as ->
        by (apply own_insert_ne; exact Hother).
      repeat match goal with
             | |- context [if ?b then _ else _] =>
                 lazymatch b with
                 | context [result] => destruct b
                 | context [entry] => destruct b
                 end
             end; cbn [negb]; try exact IH.
      rewrite own_insert_ne by exact Hother. exact IH.
Qed.

Lemma first_non_null_mapping_unmapped (config : gmap string value)
    (canonicalKey : string) (mappings : list Mapping) :
  canonicalKey ∉ map targetKey mappings →
  Specified.first_non_null_mapping config canonicalKey mappings = None.
Proof.
  intros Hkey. unfold Specified.first_non_null_mapping.
  induction mappings as [|mapping mappings IH]; [reflexivity|].
  cbn [map] in Hkey. apply not_elem_of_cons in Hkey as [Hne Hkey].
  cbn [find]. destruct (String.eqb_spec (targetKey mapping) canonicalKey);
    [congruence|]. cbn [andb]. exact (IH Hkey).
Qed.

(** X12. For a key that is neither a canonical key of the table nor
    [adhesion_type] nor [speeds]: [mapConfigToSettings] gives it the entry of
    the vendor config (unwrapped when it is a one-element array) if the key is
    an allowed extra key, is not a consumed key, and the base settings have
    no value for it; in every other case it keeps what the base settings
    have. In particular a vendor key outside the allowed list never reaches
    the settings, and a base setting is never overwritten. *)
Theorem mapConfigToSettings_other_keys `{JsHost} (config baseSettings : gmap string value)
    (key : string) :
  key ∉ map targetKey GLOBAL_PROCESS_MAPPINGS →
  key ≠ "adhesion_type" →
  key ≠ "speeds" →
  own (mapConfigToSettings config baseSettings) key
  = if bool_decide (key ∈ ALLOWED_EXTRA_CONFIG_KEYS)
       && negb (bool_decide (key ∈ CONSUMED_CONFIG_KEYS))
       && strict_equals (own baseSettings key) VUndefined
    then unwrapSingle (own config key)
    else own baseSettings key.
Proof.
  intros Htarget Hadhesion Hspeeds. unfold mapConfigToSettings.
  pose proof (mapGlobalProcess_fold_lookup (normalizeConfigEntries config)
                GLOBAL_PROCESS_MAPPINGS baseSettings ∅ key) as Hloop.
  destruct (fold_left _ GLOBAL_PROCESS_MAPPINGS _) as [next populated].
  cbn [fst] in Hloop.
  rewrite bool_decide_eq_false_2 in Hloop by set_solver.
  rewrite (first_non_null_mapping_unmapped _ _ _ Htarget) in Hloop.
  rewrite mergeRemainingConfig_own.
  assert (own (applySpeedsFromConfig (normalizeConfigEntries config)
                 (applyAdhesionFromConfig (normalizeConfigEntries config) next)) key
          = own baseSettings key) as ->.
  { unfold own. rewrite applySpeedsFromConfig_lookup by exact Hspeeds.
    rewrite applyAdhesionFromConfig_lookup by exact Hadhesion.
    rewrite Hloop. reflexivity. }
  assert (own (normalizeConfigEntries config) key = unwrapSingle (own config key)) as ->.
  { unfold own, normalizeConfigEntries. rewrite lookup_fmap.
    destruct (config !! key); reflexivity. }
  destruct (bool_decide (key ∈ CONSUMED_CONFIG_KEYS)); cbn [negb andb];
    [rewrite andb_false_r; reflexivity|].
  destruct (bool_decide (key ∈ ALLOWED_EXTRA_CONFIG_KEYS)); cbn [negb andb];
    [|reflexivity].
  destruct (strict_equals (own baseSettings key) VUndefined); reflexivity.
Qed.

(** The repository's tests: [travel_speed] is carried through, unwrapped;
    the custom G-code is not. *)
Lemma mapConfigToSettings_other_keys_witness :
  let config : gmap string value :=
    {[ "travel_speed" := VArr [VStr "170"]; "layer_change_gcode" := VStr "M600" ]} in
  own (mapConfigToSettings (H := ExampleHost.host) config ∅) "travel_speed"
  = VStr "170"
  ∧ own (mapConfigToSettings (H := ExampleHost.host) config ∅) "layer_change_gcode"
    = VUndefined.
Proof.
  intros config. split.
  - etransitivity.
    + apply (mapConfigToSettings_other_keys (H := ExampleHost.host) config ∅
               "travel_speed"); [decide_by_evaluation|discriminate|discriminate].
    + vm_compute. reflexivity.
  - etransitivity.
    + apply (mapConfigToSettings_other_keys (H := ExampleHost.host) config ∅
               "layer_change_gcode"); [decide_by_evaluation|discriminate|discriminate].
    + vm_compute. reflexivity.
Defined.

(** ** The phases of the writer *)

Lemma applyGlobalProcessConfig_step_frame `{JsHost} (gp : gmap string value)
    (state : gmap string value * list string) (mapping : Mapping) (k : string) :
  (k ≠ configKey mapping →
   (applyGlobalProcessConfig_step gp state mapping).1 !! k = state.1 !! k)
  ∧ (k ∈ (applyGlobalProcessConfig_step gp state mapping).2 →
     k ∈ state.2 ∨ k = configKey mapping).
Proof.
  destruct state as [cfg touchedKeys]. unfold applyGlobalProcessConfig_step.
  destruct (strict_equals _ _); [auto|].
  destruct (is_nullish (serialize mapping _)) eqn:Hformatted; [auto|].
  destruct (mapping_mode mapping); unfold setShapedConfigValue, setDirectConfigValue;
    rewrite ?Hformatted; cbn [fst snd]; split;
    try (intros Hk; apply lookup_insert_ne; congruence);
    rewrite set_add_elem; tauto.
Qed.

Lemma applyGlobalProcessConfig_fold_frame `{JsHost} (gp : gmap string value)
    (mappings : list Mapping) (state : gmap string value * list string)
    (k : string) :
  (k ∉ map configKey mappings →
   (fold_left (applyGlobalProcessConfig_step gp) mappings state).1 !! k
   = state.1 !! k)
  ∧ (k ∈ (fold_left (applyGlobalProcessConfig_step gp) mappings state).2 →
     k ∈ state.2 ∨ k ∈ map configKey mappings).
Proof.
  revert state. induction mappings as [|mapping mappings IH]; intros state.
  - cbn. auto.
  - cbn [fold_left map].
    destruct (IH (applyGlobalProcessConfig_step gp state mapping)) as [IHcfg IHkeys].
    destruct (applyGlobalProcessConfig_step_frame gp state mapping k)
      as [Hcfg Hkeys].
    split.
    + intros Hk. apply not_elem_of_cons in Hk as [Hne Hk].
      rewrite IHcfg by exact Hk. apply Hcfg. exact Hne.
    + intros Hk. rewrite elem_of_cons.
      destruct (IHkeys Hk) as [Hin|Hin]; [|tauto].
      destruct (Hkeys Hin); tauto.
Qed.



Lemma writeAdhesionToConfig_written (cfg : gmap string value)
    (touchedKeys : list string) (adhesionType : value) :
  let after := writeAdhesionToConfig (cfg, touchedKeys) adhesionType in
  own after.1 "brim_width"
  = (if strict_equals adhesionType (VStr "brim")
     then own cfg "brim_width" ?? VStr "5" else VStr "0")
  ∧ own after.1 "raft_layers"
    = (if strict_equals adhesionType (VStr "raft")
       then own cfg "raft_layers" ?? VStr "1" else VStr "0").
Proof.
  cbn zeta. unfold writeAdhesionToConfig, setDirectConfigValue.
  assert (∀ v fallback, is_nullish (if strict_equals adhesionType v
                                    then fallback ?? VStr "5" else VStr "0") = false)
    as Hbrim.
  { intros v fallback. destruct (strict_equals adhesionType v); [|reflexivity].
    unfold nullish_or. destruct (is_nullish fallback) eqn:Hf; [reflexivity|exact Hf]. }
  assert (∀ v fallback, is_nullish (if strict_equals adhesionType v
                                    then fallback ?? VStr "1" else VStr "0") = false)
    as Hraft.
  { intros v fallback. destruct (strict_equals adhesionType v); [|reflexivity].
    unfold nullish_or. destruct (is_nullish fallback) eqn:Hf; [reflexivity|exact Hf]. }
  rewrite Hbrim. rewrite Hraft. cbn [fst snd]. split.
  - rewrite own_insert_ne by discriminate. apply own_insert_eq.
  - rewrite own_insert_eq. rewrite own_insert_ne by discriminate. reflexivity.
Qed.

Lemma writePrinterAndFilament_frame `{JsHost} (state state' : gmap string value * list string)
    (normalized : Normalized) (k : string) :
  writePrinterAndFilament state normalized = Ok state' →
  (k ≠ "nozzle_diameter" → k ≠ "filament_type" → k ≠ "default_print_profile" →
   state'.1 !! k = state.1 !! k)
  ∧ (k ∈ state'.2 →
     k ∈ state.2 ∨ k = "nozzle_diameter" ∨ k = "filament_type"
     ∨ k = "default_print_profile").
Proof.
  destruct state as [cfg touchedKeys]. unfold writePrinterAndFilament.
  destruct (projectSummary_member normalized "printer") as [printer|]; [|discriminate].
  cbn [mbind result_bind].
  destruct (get_member printer "nozzle_diameter_mm") as [nozzleDiameter|];
    [|discriminate].
  cbn [mbind result_bind].
  destruct (negb (is_nullish nozzleDiameter));
    (destruct (projectSummary_member normalized "filaments") as [filaments|];
     [|discriminate]);
    cbn [mbind result_bind];
    (destruct (first_element filaments) as [firstFilament|]; [|discriminate]);
    cbn [mbind result_bind];
    destruct (truthy (opt_member firstFilament "material_family"));
    (destruct (projectSummary_member normalized "base_profile") as [base_profile|];
     [|discriminate]);
    cbn [mbind result_bind];
    destruct (negb (strict_equals _ _)); intros [= <-]; cbn [fst snd];
    (split;
     [intros Hn Hf Hp; rewrite ?lookup_insert_ne by congruence; reflexivity
     |rewrite ?set_add_elem; tauto]).
Qed.

Lemma applySpeedConfig_frame `{JsHost} (state : gmap string value * list string)
    (speeds : value) (k : string) :
  (k ∉ map fst SPEED_MAPPINGS → (applySpeedConfig state speeds).1 !! k = state.1 !! k)
  ∧ (k ∈ (applySpeedConfig state speeds).2 →
     k ∈ state.2 ∨ k ∈ map fst SPEED_MAPPINGS).
Proof.
  unfold applySpeedConfig. generalize SPEED_MAPPINGS. intros mappings.
  revert state. induction mappings as [|[configKey speedKey] mappings IH];
    intros state; [cbn; auto|].
  cbn [fold_left map fst].
  destruct (IH (applySpeedConfig_step speeds state (configKey, speedKey)))
    as [IHcfg IHkeys].
  assert ((k ≠ configKey →
           (applySpeedConfig_step speeds state (configKey, speedKey)).1 !! k
           = state.1 !! k)
          ∧ (k ∈ (applySpeedConfig_step speeds state (configKey, speedKey)).2 →
             k ∈ state.2 ∨ k = configKey)) as [Hcfg Hkeys].
  { destruct state as [cfg touchedKeys]. unfold applySpeedConfig_step.
    destruct (strict_equals _ _); cbn [fst snd]; [auto|].
    split; [intros Hk; apply lookup_insert_ne; congruence|].
    rewrite set_add_elem. tauto. }
  split.
  - intros Hk. apply not_elem_of_cons in Hk as [Hne Hk].
    rewrite IHcfg by exact Hk. apply Hcfg. exact Hne.
  - intros Hk. rewrite elem_of_cons.
    destruct (IHkeys Hk) as [Hin|Hin]; [|tauto]. destruct (Hkeys Hin); tauto.
Qed.

Lemma applyAdditionalConfig_frame `{JsHost} (state : gmap string value * list string)
    (gp : gmap string value) (k : string) :
  ((k ∉ ALLOWED_EXTRA_CONFIG_KEYS ∨ k ∈ MAPPED_CONFIG_KEYS ∨ k ∈ MAPPED_TARGET_KEYS) →
   (applyAdditionalConfig state gp).1 !! k = state.1 !! k)
  ∧ (k ∈ (applyAdditionalConfig state gp).2 →
     k ∈ state.2
     ∨ (k ∈ ALLOWED_EXTRA_CONFIG_KEYS ∧ (k ∉ MAPPED_CONFIG_KEYS)
        ∧ k ∉ MAPPED_TARGET_KEYS)).
Proof.
  unfold applyAdditionalConfig.
  apply (map_fold_weak_ind
           (λ result _,
              ((k ∉ ALLOWED_EXTRA_CONFIG_KEYS ∨ k ∈ MAPPED_CONFIG_KEYS
                ∨ k ∈ MAPPED_TARGET_KEYS) →
               result.1 !! k = state.1 !! k)
              ∧ (k ∈ result.2 →
                 k ∈ state.2
                 ∨ (k ∈ ALLOWED_EXTRA_CONFIG_KEYS ∧ (k ∉ MAPPED_CONFIG_KEYS)
                    ∧ k ∉ MAPPED_TARGET_KEYS)))).
  - auto.
  - intros entry v visited [cfg touchedKeys] _ [IHcfg IHkeys].
    unfold applyAdditionalConfig_step, allowedExtraKey.
    case_bool_decide as Htarget; [auto|].
    case_bool_decide as Hconfig; [auto|].
    case_bool_decide as Hallowed; cbn [negb]; [|auto].
    destruct (_ || _); [auto|]. destruct (is_nullish v); [auto|].
    cbn [fst snd] in *. split.
    + intros Hk. rewrite lookup_insert_ne; [apply IHcfg; exact Hk|].
      intros ->. tauto.
    + rewrite set_add_elem. intros [->|Hk]; [tauto|auto].
Qed.

Lemma buildConfigFromNormalized_inv `{JsHost} (base : gmap string value)
    (normalized : Normalized) (cfg : gmap string value) :
  buildConfigFromNormalized base normalized = Ok cfg →
  ∃ state3 written touchedKeys,
    writePrinterAndFilament
      (writeAdhesionToConfig
         (fold_left (applyGlobalProcessConfig_step (globalProcess normalized))
            GLOBAL_PROCESS_MAPPINGS (base, []))
         (own (globalProcess normalized) "adhesion_type"))
      normalized = Ok state3
    ∧ applyAdditionalConfig
        (applySpeedConfig state3 (own (globalProcess normalized) "speeds"))
        (globalProcess normalized) = (written, touchedKeys)
    ∧ cfg = <["different_settings_to_system" :=
                VArr (map VStr
                        (updateDifferentSettingsToSystem
                           (own written "different_settings_to_system") base
                           written touchedKeys))]> written.
Proof.
  unfold buildConfigFromNormalized, applyGlobalProcessConfig.
  destruct (writePrinterAndFilament _ normalized) as [state3|]; [|discriminate].
  cbn [mbind result_bind].
  destruct (applyAdditionalConfig _ _) as [written touchedKeys] eqn:Hadditional.
  intros [= <-]. exists state3, written, touchedKeys.
  split; [reflexivity|]. split; [exact Hadditional|reflexivity].
Qed.

(** The keys the mapped phases write, and the bookkeeping key, which is none
    of them. *)
Lemma writer_key_sets `{JsHost} :
  NoDup (map configKey GLOBAL_PROCESS_MAPPINGS)
  ∧ (∀ k, k ∈ map configKey GLOBAL_PROCESS_MAPPINGS → k ∈ MAPPED_CONFIG_KEYS)
  ∧ (∀ k, k ∈ map fst SPEED_MAPPINGS → k ∈ MAPPED_CONFIG_KEYS)
  ∧ "brim_width" ∈ MAPPED_CONFIG_KEYS
  ∧ "raft_layers" ∈ MAPPED_CONFIG_KEYS
  ∧ ("different_settings_to_system" ∉ MAPPED_CONFIG_KEYS)
  ∧ ("different_settings_to_system" ∉ ALLOWED_EXTRA_CONFIG_KEYS).
Proof.
  split; [decide_by_evaluation|].
  split; [intros k Hk; unfold MAPPED_CONFIG_KEYS; rewrite elem_of_app; auto|].
  split; [intros k Hk; unfold MAPPED_CONFIG_KEYS; rewrite !elem_of_app; auto|].
  repeat split; decide_by_evaluation.
Qed.




(** X14. In the written config, [brim_width] is the entry of the base config
    (or the string [5] if it has none or [null]) when the adhesion type of
    the global settings is [brim] and the string [0] otherwise, and
    [raft_layers] is the entry of the base config (or the string [1]) when
    the adhesion type is [raft] and the string [0] otherwise:
    a [brim_width] or [raft_layers] held by the global settings is never
    written. *)
Theorem buildConfigFromNormalized_adhesion `{JsHost} (base : gmap string value)
    (normalized : Normalized) (cfg : gmap string value) :
  buildConfigFromNormalized base normalized = Ok cfg →
  let adhesionType := own (globalProcess normalized) "adhesion_type" in
  own cfg "brim_width"
  = (if strict_equals adhesionType (VStr "brim")
     then own base "brim_width" ?? VStr "5" else VStr "0")
  ∧ own cfg "raft_layers"
    = (if strict_equals adhesionType (VStr "raft")
       then own base "raft_layers" ?? VStr "1" else VStr "0").
Proof.
  intros Hbuild adhesionType.
  destruct (buildConfigFromNormalized_inv _ _ _ Hbuild)
    as (state3 & written & touchedKeys & Hprinter & Hadditional & ->).
  destruct writer_key_sets as (_ & _ & _ & Hbrim & Hraft & _).
  set (gp := globalProcess normalized) in *.
  set (state1 := fold_left _ GLOBAL_PROCESS_MAPPINGS (base, [])) in *.
  assert (∀ k, k = "brim_width" ∨ k = "raft_layers" →
               written !! k
               = (writeAdhesionToConfig state1 adhesionType).1 !! k
               ∧ state1.1 !! k = base !! k) as Hlater.
  { intros k Hk.
    assert (k ∈ MAPPED_CONFIG_KEYS) as Hmapped by (destruct Hk as [->| ->]; assumption).
    destruct (applyAdditionalConfig_frame
                (applySpeedConfig state3 (own gp "speeds")) gp k) as [Hcfg5 _].
    rewrite Hadditional in Hcfg5. cbn [fst] in Hcfg5.
    destruct (applySpeedConfig_frame state3 (own gp "speeds") k) as [Hcfg4 _].
    destruct (writePrinterAndFilament_frame _ state3 normalized k Hprinter)
      as [Hcfg3 _].
    destruct (applyGlobalProcessConfig_fold_frame gp GLOBAL_PROCESS_MAPPINGS
                (base, []) k) as [Hcfg1 _].
    fold state1 in Hcfg1. cbn [fst] in Hcfg1.
    split.
    - rewrite Hcfg5 by (right; left; exact Hmapped).
      rewrite Hcfg4 by (destruct Hk as [->| ->]; decide_by_evaluation).
      apply Hcfg3; destruct Hk as [->| ->]; discriminate.
    - apply Hcfg1. destruct Hk as [->| ->]; decide_by_evaluation. }
  destruct state1 as [cfg1 touched1] eqn:Hstate1.
  destruct (writeAdhesionToConfig_written cfg1 touched1 adhesionType)
    as [Hbrim' Hraft'].
  destruct (Hlater "brim_width" (or_introl eq_refl)) as [Hb1 Hb2].
  destruct (Hlater "raft_layers" (or_intror eq_refl)) as [Hr1 Hr2].
  cbn [fst] in Hb2, Hr2. split.
  - rewrite own_insert_ne by discriminate. unfold own at 1. rewrite Hb1.
    fold (own (writeAdhesionToConfig (cfg1, touched1) adhesionType).1 "brim_width").
    rewrite Hbrim'. unfold own. rewrite Hb2. reflexivity.
  - rewrite own_insert_ne by discriminate. unfold own at 1. rewrite Hr1.
    fold (own (writeAdhesionToConfig (cfg1, touched1) adhesionType).1 "raft_layers").
    rewrite Hraft'. unfold own. rewrite Hr2. reflexivity.
Qed.

(** Adhesion [raft] over a base config with a brim of [8], with a
    [brim_width] of [8] among the global settings too: the brim is written as
    [0], the raft as [1]. *)
Lemma buildConfigFromNormalized_adhesion_witness :
  let base : gmap string value := {[ "brim_width" := VStr "8" ]} in
  let model :=
    {| projectInfo :=
         Examples.object
           [("printer", Examples.object [("name", VStr "X1")]);
            ("filaments", VArr [])];
       plates := [];
       globalProcess := {[ "adhesion_type" := VStr "raft"; "brim_width" := VStr "8" ]};
       perObjectOverrides := ∅;
       userModifiedSettings := None |} in
  let cfg : gmap string value :=
    {[ "brim_width" := VStr "0"; "raft_layers" := VStr "1";
       "different_settings_to_system" :=
         VArr [VStr "brim_width;raft_layers"; VStr ""; VStr ""] ]} in
  buildConfigFromNormalized (H := ExampleHost.host) base model = Ok cfg
  ∧ own cfg "brim_width" = VStr "0"
  ∧ own cfg "raft_layers" = VStr "1".
Proof.
  intros base model cfg.
  assert (buildConfigFromNormalized (H := ExampleHost.host) base model = Ok cfg)
    as Hrun by (vm_compute; reflexivity).
  split; [exact Hrun|].
  exact (buildConfigFromNormalized_adhesion (H := ExampleHost.host) _ _ _ Hrun).
Defined.
